(** * s3prl: the balanced weighted batch sampler and the SUPERB ASR training script

    A shallow embedding of
    - [s3prl/sampler/balanced_weighted_sampler.py] (class [BalancedWeightedSampler]),
    - [example/superb_asr/train.py] (function [main]),
    together with the properties their specification states about them.

    Python integers are [Z]; list lengths and list positions are [nat].
    A [Counter] is a [gmap] from labels to counts.  The quotient of two
    Python integers ([/], true division) is kept as the exact rational [Q].
    Code that can raise returns a [result]. *)

From Stdlib Require Import ZArith QArith Floats.
From stdpp Require Import gmap list strings.

Local Open Scope Z_scope.

(** ** Exceptions and fallible results *)

Inductive exn : Type :=
  | ZeroDivisionError
  | ValueError
  | RuntimeError.

Inductive result (A : Type) : Type :=
  | Ok (a : A)
  | Raise (e : exn).
Arguments Ok {A} a.
Arguments Raise {A} e.

#[global] Instance result_ret : MRet result := λ A a, Ok a.
#[global] Instance result_bind : MBind result := λ A B k r,
  match r with
  | Ok a => k a
  | Raise e => Raise e
  end.

Definition is_Ok {A} (r : result A) : Prop := ∃ a, r = Ok a.

(** ** The sampler *)

Module Sampler.

(** [torch.Generator.manual_seed] accepts seeds in [-2^63, 2^64 - 1]. *)
Definition valid_seed (s : Z) : Prop := - 2 ^ 63 ≤ s < 2 ^ 64.

(** What [WeightedRandomSampler] needs of a weight vector for [torch.multinomial]
    to draw from it: some weight, all positive. *)
Definition valid_weights (w : list Q) : Prop := w ≠ [] ∧ Forall (λ x, (0 < x)%Q) w.

(** The contract of [list(WeightedRandomSampler(weights, num_samples,
    replacement, generator=g))] with [g] seeded by [manual_seed]: on a usable
    weight vector, a positive number of samples and a seed in range, it returns
    [num_samples] positions of the weight vector.  Nothing is assumed outside
    these conditions. *)
Definition draw_contract (draw : list Q → Z → bool → Z → result (list nat)) : Prop :=
  ∀ w n s, valid_weights w → 0 < n → valid_seed s →
    ∃ l, draw w n true s = Ok l ∧ length l = Z.to_nat n ∧ Forall (λ i, (i < length w)%nat) l.

Section BalancedWeightedSampler.
(** Dataset items, and the label an item shows in label-only mode
    ([dataset.output_keys_as(["label"])], then [item["label"]]). *)
Context {Item Label : Type} `{Countable Label}.
Variable label : Item → Label.

(** [torch.utils.data.WeightedRandomSampler] drawn to a list, as a function of
    the weights, the number of samples, the replacement flag and the seed
    given to the generator. *)
Variable WeightedRandomSampler : list Q → Z → bool → Z → result (list nat).

Record sampler : Type := mk_sampler {
  epoch : Z;
  seed : Z;
  batch_size : Z;
  duplicate : Z;
  weights : list Q;
}.

(** [class2weight.update([label])] and [class2weight[label]] of a [Counter]. *)
Definition Counter_update (c : gmap Label nat) (l : Label) : gmap Label nat :=
  <[l := S (default 0%nat (c !! l))]> c.

Definition Counter_get (c : gmap Label nat) (l : Label) : nat :=
  default 0%nat (c !! l).

(** [len(dataset) / count]: Python's true division of two integers, kept
    as the exact quotient; the float of the program is its rounding. *)
Definition true_div (n c : nat) : result Q :=
  if decide (c = 0%nat) then Raise ZeroDivisionError
  else Ok (Z.of_nat n # Pos.of_nat c).

(** First loop of [get_weights]: count the labels. *)
Definition count_labels (dataset : list Item) : gmap Label nat :=
  foldl (λ c item, Counter_update c (label item)) ∅ dataset.

(** Second loop of [get_weights]: one weight per item, appended in order. *)
Fixpoint assign_weights (n : nat) (class2weight : gmap Label nat)
    (items : list Item) (weights : list Q) : result (list Q) :=
  match items with
  | [] => Ok weights
  | item :: rest =>
      w ← true_div n (Counter_get class2weight (label item));
      assign_weights n class2weight rest (weights ++ [w])
  end.

Definition get_weights (dataset : list Item) : result (list Q) :=
  let class2weight := count_labels dataset in
  assign_weights (length dataset) class2weight dataset [].

(** [__init__]: no argument is checked; [get_weights or self.get_weights]
    picks the caller's weight function when one is given.  The base class
    initialiser ([super().__init__(dataset)]) keeps nothing the sampler reads. *)
Definition __init__ (dataset : list Item) (batch_size : Z)
    (custom_get_weights : option (list Item → result (list Q)))
    (duplicate : Z) (seed : Z) : result sampler :=
  let get_weights := default get_weights custom_get_weights in
  w ← get_weights dataset;
  Ok {| epoch := 0; seed := seed; batch_size := batch_size;
        duplicate := duplicate; weights := w |}.

Definition set_epoch (s : sampler) (e : Z) : sampler :=
  {| epoch := e; seed := seed s; batch_size := batch_size s;
     duplicate := duplicate s; weights := weights s |}.

(** The [for indice in indices] loop of [__iter__]; the result lists the
    batches in the order they are yielded. *)
Fixpoint batch_loop (batch_size : Z) (indices : list nat) (batch : list nat)
    : list (list nat) :=
  match indices with
  | [] => []
  | indice :: rest =>
      let batch := batch ++ [indice] in
      if decide (Z.of_nat (length batch) = batch_size)
      then batch :: batch_loop batch_size rest []
      else batch_loop batch_size rest batch
  end.

(** [indices = list(sampler)] in [__iter__]. *)
Definition draw_indices (s : sampler) : result (list nat) :=
  WeightedRandomSampler (weights s) (Z.of_nat (length (weights s)) * duplicate s)
    true (epoch s + seed s).

(** [list(iter(self))]: every batch the generator yields. *)
Definition __iter__ (s : sampler) : result (list (list nat)) :=
  indices ← draw_indices s;
  Ok (batch_loop (batch_size s) indices []).

Definition __len__ (s : sampler) : result nat :=
  batches ← __iter__ s;
  Ok (length batches).

(** *** What the specification speaks of *)

(** The number of items of the dataset that carry label [l]. *)
Definition label_count (dataset : list Item) (l : Label) : nat :=
  length (filter (λ item, label item = l) dataset).

(** The weight the specification gives to an item. *)
Definition inverse_frequency (dataset : list Item) (item : Item) : Q :=
  Z.of_nat (length dataset) # Pos.of_nat (label_count dataset (label item)).

End BalancedWeightedSampler.

(** *** The generators behind [__iter__]

    The same iteration with the random state of torch made explicit.  A
    [World] is everything outside the sampler object that a draw could read;
    it holds the default generator, which torch uses when a random function is
    given no generator.  A generator is identified with its state. *)
Class TorchRandom : Type := {
  World : Type;
  GenState : Type;
  (** [torch.Generator()]: a new generator object; the state it starts in is
      taken from the world *)
  Generator : World → GenState * World;
  (** [generator.manual_seed(seed)] *)
  manual_seed : GenState → Z → result GenState;
  default_generator : World → GenState;
  set_default_generator : World → GenState → World;
  (** the draw of [WeightedRandomSampler] from a generator in a given state:
      the indices, and the state the generator is left in *)
  sample : list Q → Z → bool → GenState → result (list nat) * GenState;
}.

(** The contract of [manual_seed]: the state it leaves is the one of the
    seed, whatever the state before. *)
Definition seeding_contract (T : TorchRandom) : Prop :=
  ∀ g g' sd, manual_seed g sd = manual_seed g' sd.

Section Generators.
Context {T : TorchRandom}.

(** [list(WeightedRandomSampler(weights, num_samples, replacement,
    generator=generator))]: without a generator the draw comes from, and
    advances, the default generator of the world. *)
Definition WeightedRandomSampler_list (weights : list Q) (num_samples : Z)
    (replacement : bool) (generator : option GenState) (world : World)
    : result (list nat) * World :=
  match generator with
  | Some g => ((sample weights num_samples replacement g).1, world)
  | None =>
      let '(indices, g) := sample weights num_samples replacement (default_generator world) in
      (indices, set_default_generator world g)
  end.

(** [list(iter(self))] in a world: lines 47-58, with the batches and the
    world after. *)
Definition iter_in_world (world : World) (s : sampler)
    : result (list (list nat)) * World :=
  let '(generator, world) := Generator world in
  match manual_seed generator (epoch s + seed s) with
  | Raise e => (Raise e, world)
  | Ok generator =>
      let '(indices, world) :=
        WeightedRandomSampler_list (weights s)
          (Z.of_nat (length (weights s)) * duplicate s) true (Some generator) world in
      (indices ← indices; Ok (batch_loop (batch_size s) indices []), world)
  end.

(** The sampler of the section above that these generators give: seed a
    generator, draw from it. *)
Definition seeded_sampler (g0 : GenState) (weights : list Q) (num_samples : Z)
    (replacement : bool) (sd : Z) : result (list nat) :=
  g ← manual_seed g0 sd;
  (sample weights num_samples replacement g).1.

End Generators.

End Sampler.

(** ** The training script *)

Module Train.

(** The command line of [parse_args]; the two positional paths are not modelled. *)
Record args : Type := mk_args {
  total_steps : Z;
  log_step : Z;
  eval_step : Z;
  save_step : Z;
}.

(** Python's [a % b] on integers: floored, raising on a zero divisor. *)
Definition py_mod (a b : Z) : result Z :=
  if decide (b = 0) then Raise ZeroDivisionError else Ok (a mod b).

(** The objects [main] only drives: the task, the optimizer, the batches and
    the results, with the operations [main] calls on them.  A call that
    mutates an object returns the object after the call.  The optimizer is
    bound to the parameters of the task, so [zero_grad] and [optimizer_step]
    act on the task. *)
Class Collaborators : Type := {
  Task : Type;
  Optimizer : Type;
  Batch : Type;
  Output : Type;
  Cacheable : Type;
  Log : Type;
  TaskCkpt : Type;
  DatasetCkpt : Type;
  Params : Type;
  (** [valid_dataset.save_checkpoint], [test_dataset.save_checkpoint] *)
  valid_dataset_ckpt : DatasetCkpt;
  test_dataset_ckpt : DatasetCkpt;
  (** [Object.load_checkpoint(latest_task).to(device)] *)
  load_checkpoint : TaskCkpt → Task;
  (** the model creation block, [problem.Task(model, ...).to(device)] *)
  create_task : Task;
  (** [task.save_checkpoint] *)
  save_checkpoint : Task → TaskCkpt;
  (** [task.parameters()] *)
  parameters : Task → Params;
  (** [optim.Adam(task.parameters(), lr=1e-3)]; an optimizer is identified
      with its state dictionary *)
  Adam : Optimizer;
  zero_grad : Task → Task;
  optimizer_step : Task → Optimizer → Task * Optimizer;
  (** [batch.to(device)] *)
  batch_to : Batch → Batch;
  (** [task.train()], [task.eval()] *)
  task_train : Task → Task;
  task_eval : Task → Task;
  train_step : Task → Batch → Task * Output;
  valid_step : Task → Batch → Task * Output;
  test_step : Task → Batch → Task * Output;
  (** [result.loss.backward()] *)
  backward : Task → Output → Task;
  (** [torch.nn.utils.clip_grad_norm_(task.parameters(), max_norm=1.0)] *)
  clip_grad_norm_ : Task → Task * float;
  (** [result.cacheable()] *)
  cacheable : Output → Cacheable;
  (** [task.train_reduction(batch_results).logs.values()] and its siblings *)
  train_reduction : Task → list Cacheable → list Log;
  valid_reduction : Task → list Cacheable → list Log;
  test_reduction : Task → list Cacheable → list Log;
  valid_dataloader : list Batch;
  test_dataloader : list Batch;
}.

(** What is assumed of the gradient machinery when a claim speaks of the
    parameters: only [optimizer.step()] writes parameter values; the forward
    passes, the mode switches, [zero_grad], [backward] and the clipping touch
    gradients and buffers. *)
Class GradientsOnly (C : Collaborators) : Prop := {
  zero_grad_parameters : ∀ t, parameters (zero_grad t) = parameters t;
  task_train_parameters : ∀ t, parameters (task_train t) = parameters t;
  train_step_parameters : ∀ t b, parameters (train_step t b).1 = parameters t;
  backward_parameters : ∀ t r, parameters (backward t r) = parameters t;
  clip_grad_norm_parameters : ∀ t, parameters (clip_grad_norm_ t).1 = parameters t;
  task_eval_parameters : ∀ t, parameters (task_eval t) = parameters t;
  valid_step_parameters : ∀ t b, parameters (valid_step t b).1 = parameters t;
}.

Section Controller.
Context {C : Collaborators}.

(** What a file under [save_to] holds. *)
Inductive file : Type :=
  | DatasetFile (c : DatasetCkpt)
  | TaskFile (c : TaskCkpt)
  | OptimizerFile (o : Optimizer).

(** The directory [save_to], by file name. *)
Definition disk : Type := gmap string file.

Inductive level : Type := INFO | WARNING.

Inductive message : Type :=
  | PreparingPreprocessor
  | PreparingTrainDataloader
  | PreparingValidDataloader
  | PreparingTestDataloader
  | LastCheckpointFound
  | NoLastCheckpointFound
  | GradNormNaN (global_step : Z)
  | TrainStepHeader (global_step : Z)
  | ValidStepHeader (global_step : Z)
  | TestHeader
  | LogLine (log : Log).

(** What a run does that can be observed from outside: the records it
    logs, and marks for the optimizer updates and the checkpoint writes. *)
Inductive event : Type :=
  | Logged (lv : level) (m : message)
  | OptimizerStepped (global_step : Z)
  | CheckpointSaved (global_step : Z).

Record state : Type := mk_state {
  pbar_n : Z;
  task : Task;
  optimizer : Optimizer;
  batch_results : list Cacheable;
  files : disk;
  trace : list event;
}.

Definition log_all (lv : level) (logs : list Log) : list event :=
  (λ log, Logged lv (LogLine log)) <$> logs.

(** [Object.load_checkpoint(latest_task)] behind [latest_task.is_file()]:
    a file that is no task checkpoint cannot be loaded. *)
Definition read_task (d : disk) : result (option TaskCkpt) :=
  match d !! "task.ckpt" with
  | None => Ok None
  | Some (TaskFile c) => Ok (Some c)
  | Some _ => Raise RuntimeError
  end.

(** [torch.load(save_to / "optimizer.ckpt")] behind [latest_optimizer.is_file()]. *)
Definition read_optimizer (d : disk) : result (option Optimizer) :=
  match d !! "optimizer.ckpt" with
  | None => Ok None
  | Some (OptimizerFile o) => Ok (Some o)
  | Some _ => Raise RuntimeError
  end.

(** The records logged while the data is prepared (lines 42-79). *)
Definition preparing : list event :=
  [Logged INFO PreparingPreprocessor; Logged INFO PreparingTrainDataloader;
   Logged INFO PreparingValidDataloader; Logged INFO PreparingTestDataloader].

(** Lines 42-141 of [main]: the dataset checkpoints, the task, the
    optimizer, and the progress bar of line 153, which starts at 0. *)
Definition startup (d : disk) : result state :=
  let d := <["valid_dataset.ckpt" := DatasetFile valid_dataset_ckpt]> d in
  let d := <["test_dataset.ckpt" := DatasetFile test_dataset_ckpt]> d in
  latest_task ← read_task d;
  let '(task, tr) :=
    match latest_task with
    | Some ckpt => (load_checkpoint ckpt, preparing ++ [Logged INFO LastCheckpointFound])
    | None => (create_task, preparing ++ [Logged INFO NoLastCheckpointFound])
    end in
  let optimizer := Adam in
  latest_optimizer ← read_optimizer d;
  let optimizer :=
    match latest_optimizer with
    | Some o => o
    | None => Adam
    end in
  Ok {| pbar_n := 0; task := task; optimizer := optimizer;
        batch_results := []; files := d; trace := tr |}.

(** Lines 161-178: the forward and backward pass and the clipping, with the
    gradient norm the clipping returns. *)
Definition forward_backward (t : Task) (batch : Batch) : Task * Output * float :=
  let t := zero_grad t in
  let batch := batch_to batch in
  let t := task_train t in
  let '(t, result) := train_step t batch in
  let t := backward t result in
  let '(t, grad_norm) := clip_grad_norm_ t in
  (t, result, grad_norm).

(** Lines 157-193: one batch up to the caching of its result.  The two
    [isinstance] assertions are the types of [batch] and [result], and the
    calls on the task and the optimizer are taken to return. *)
Definition update_phase (st : state) (batch : Batch) : state :=
  let n := pbar_n st + 1 in
  let global_step := n in
  let '(t, result, grad_norm) := forward_backward (task st) batch in
  let '(t, o, tr) :=
    if PrimFloat.is_nan grad_norm
    then (t, optimizer st, trace st ++ [Logged WARNING (GradNormNaN global_step)])
    else let '(t, o) := optimizer_step t (optimizer st) in
         (t, o, trace st ++ [OptimizerStepped global_step]) in
  let cacheable_result := cacheable result in
  {| pbar_n := n; task := t; optimizer := o;
     batch_results := batch_results st ++ [cacheable_result];
     files := files st; trace := tr |}.

(** Lines 195-200. *)
Definition log_cadence (a : args) (st : state) : result state :=
  let global_step := pbar_n st in
  r ← py_mod (global_step + 1) (log_step a);
  if decide (r = 0) then
    let logs := train_reduction (task st) (batch_results st) in
    Ok {| pbar_n := pbar_n st; task := task st; optimizer := optimizer st;
          batch_results := []; files := files st;
          trace := trace st ++ Logged INFO (TrainStepHeader global_step)
                     :: log_all INFO logs |}
  else Ok st.

(** The validation loop of lines 207-214. *)
Fixpoint valid_loop (t : Task) (batches : list Batch) (valid_results : list Cacheable)
    : Task * list Cacheable :=
  match batches with
  | [] => (t, valid_results)
  | batch :: rest =>
      let batch := batch_to batch in
      let '(t, result) := valid_step t batch in
      valid_loop t rest (valid_results ++ [cacheable result])
  end.

(** Lines 202-219. *)
Definition eval_cadence (a : args) (st : state) : result state :=
  let global_step := pbar_n st in
  r ← py_mod (global_step + 1) (eval_step a);
  if decide (r = 0) then
    let t := task_eval (task st) in
    let '(t, valid_results) := valid_loop t valid_dataloader [] in
    let logs := valid_reduction t valid_results in
    Ok {| pbar_n := pbar_n st; task := t; optimizer := optimizer st;
          batch_results := batch_results st; files := files st;
          trace := trace st ++ Logged INFO (ValidStepHeader global_step)
                     :: log_all INFO logs |}
  else Ok st.

(** Lines 221-223: both files are written under fixed names. *)
Definition save_cadence (a : args) (st : state) : result state :=
  let global_step := pbar_n st in
  r ← py_mod (global_step + 1) (save_step a);
  if decide (r = 0) then
    let d := <["task.ckpt" := TaskFile (save_checkpoint (task st))]> (files st) in
    let d := <["optimizer.ckpt" := OptimizerFile (optimizer st)]> d in
    Ok {| pbar_n := pbar_n st; task := task st; optimizer := optimizer st;
          batch_results := batch_results st; files := d;
          trace := trace st ++ [CheckpointSaved global_step] |}
  else Ok st.

(** The body of the [for batch in train_dataloader] loop. *)
Definition train_body (a : args) (st : state) (batch : Batch) : result state :=
  let st := update_phase st batch in
  st ← log_cadence a st;
  st ← eval_cadence a st;
  save_cadence a st.

Fixpoint train_for (a : args) (batches : list Batch) (st : state) : result state :=
  match batches with
  | [] => Ok st
  | batch :: rest =>
      st ← train_body a st batch;
      train_for a rest st
  end.

(** One turn of [while True]: [batch_results = []], then the [for] loop over
    what the train dataloader yields in this pass. *)
Definition train_pass (a : args) (batches : list Batch) (st : state) : result state :=
  let st := {| pbar_n := pbar_n st; task := task st; optimizer := optimizer st;
               batch_results := []; files := files st; trace := trace st |} in
  train_for a batches st.

(** Where a loop stands once the observed passes are used up. *)
Inductive loop_outcome : Type :=
  | Exited (st : state)
  | Running (st : state)
  | Raised (e : exn).

(** [while cond: body].  [passes] lists what the train dataloader yields at
    each turn the run gets to make, the last one cut where the process is
    stopped; the loop is [Running] when they are used up and its condition
    still holds. *)
Fixpoint while (cond : state → bool) (body : list Batch → state → result state)
    (passes : list (list Batch)) (st : state) : loop_outcome :=
  if cond st then
    match passes with
    | [] => Running st
    | batches :: rest =>
        match body batches st with
        | Ok st => while cond body rest st
        | Raise e => Raised e
        end
    end
  else Exited st.

(** The test loop of lines 227-232. *)
Fixpoint test_loop (t : Task) (batches : list Batch) (test_results : list Cacheable)
    : Task * list Cacheable :=
  match batches with
  | [] => (t, test_results)
  | batch :: rest =>
      let batch := batch_to batch in
      let '(t, result) := test_step t batch in
      test_loop t rest (test_results ++ [cacheable result])
  end.

(** Lines 225-237. *)
Definition test_pass (st : state) : state :=
  let '(t, test_results) := test_loop (task st) test_dataloader [] in
  let logs := test_reduction t test_results in
  {| pbar_n := pbar_n st; task := t; optimizer := optimizer st;
     batch_results := batch_results st; files := files st;
     trace := trace st ++ Logged INFO TestHeader :: log_all INFO logs |}.

(** How an observed run of [main] ends: past the test block, stopped inside
    the training loop, or on an exception. *)
Inductive run_outcome : Type :=
  | Completed (st : state)
  | Interrupted (st : state)
  | Failed (e : exn).

Definition main (a : args) (d : disk) (passes : list (list Batch)) : run_outcome :=
  match startup d with
  | Ok st =>
      match while (λ _, true) (train_pass a) passes st with
      | Exited st => Completed (test_pass st)
      | Running st => Interrupted st
      | Raised e => Failed e
      end
  | Raise e => Failed e
  end.

(** The global steps at which a trace records a checkpoint write. *)
Definition saved_steps (tr : list event) : list Z :=
  omap (λ e, match e with CheckpointSaved g => Some g | _ => None end) tr.

Definition optimizer_steps (tr : list event) : list Z :=
  omap (λ e, match e with OptimizerStepped g => Some g | _ => None end) tr.

(** The names of the files that hold a task checkpoint. *)
Definition task_checkpoint_files (d : disk) : list string :=
  omap (λ kv, match kv.2 with TaskFile _ => Some kv.1 | _ => None end)
       (map_to_list d).

(** *** What the specification speaks of *)

(** The records of the periodic logging: headers and log lines at level
    [INFO]. *)
Definition routine (e : event) : Prop :=
  match e with
  | Logged INFO (TrainStepHeader _) | Logged INFO (ValidStepHeader _)
  | Logged INFO (LogLine _) => True
  | _ => False
  end.

(** Whether the save cadence fires at global step [g]. *)
Definition fires (a : args) (g : Z) : Prop := (g + 1) mod save_step a = 0.

#[global] Instance fires_dec (a : args) (g : Z) : Decision (fires a g).
Proof. unfold fires. apply _. Defined.

Definition nonzero_steps (a : args) : Prop :=
  log_step a ≠ 0 ∧ eval_step a ≠ 0 ∧ save_step a ≠ 0.

(** The global steps among [n + 1, ..., n + k] at which the save cadence fires. *)
Definition cadence_steps (a : args) (n k : Z) : list Z :=
  filter (fires a) (seqZ (n + 1) k).

Definition checkpoint_names : gset string := {["task.ckpt"; "optimizer.ckpt"]}.

(** [st'] is reached from [st] by [k] more batches. *)
Record extends (a : args) (k : Z) (st st' : state) : Prop := {
  ext_pbar : pbar_n st' = pbar_n st + k;
  ext_trace : ∃ new, trace st' = trace st ++ new
                ∧ saved_steps new = cadence_steps a (pbar_n st) k
                ∧ Logged INFO TestHeader ∉ new;
  ext_quiet : cadence_steps a (pbar_n st) k = [] → files st' = files st;
  ext_saved : cadence_steps a (pbar_n st) k ≠ [] →
              ∃ c o, files st' !! "task.ckpt" = Some (TaskFile c)
                   ∧ files st' !! "optimizer.ckpt" = Some (OptimizerFile o);
  ext_frame : ∀ name, name ∉ checkpoint_names →
              files st' !! name = files st !! name;
}.

(** *** What a trace shows of the cadences *)

(** Whether the log cadence and the evaluation cadence fire at global step [g]. *)
Definition log_fires (a : args) (g : Z) : Prop := (g + 1) mod log_step a = 0.

Definition eval_fires (a : args) (g : Z) : Prop := (g + 1) mod eval_step a = 0.

#[global] Instance log_fires_dec (a : args) (g : Z) : Decision (log_fires a g).
Proof. unfold log_fires. apply _. Defined.

#[global] Instance eval_fires_dec (a : args) (g : Z) : Decision (eval_fires a g).
Proof. unfold eval_fires. apply _. Defined.

(** The global steps of the [[Train] step] and [[Valid] step] headers. *)
Definition train_log_steps (tr : list event) : list Z :=
  omap (λ e, match e with Logged INFO (TrainStepHeader g) => Some g | _ => None end) tr.

Definition valid_log_steps (tr : list event) : list Z :=
  omap (λ e, match e with Logged INFO (ValidStepHeader g) => Some g | _ => None end) tr.

(** The global steps whose gradient norm was reported as not a number. *)
Definition nan_steps (tr : list event) : list Z :=
  omap (λ e, match e with Logged WARNING (GradNormNaN g) => Some g | _ => None end) tr.

(** The global steps at which the guard of lines 180-183 was decided,
    either way. *)
Definition guarded_steps (tr : list event) : list Z :=
  omap (λ e, match e with
             | OptimizerStepped g | Logged WARNING (GradNormNaN g) => Some g
             | _ => None
             end) tr.

End Controller.

End Train.

(** ** Executable instances

    A sampler that meets [Sampler.draw_contract] and a small task, on which
    the model runs on concrete inputs. *)

Module Instances.

(** *** A weighted sampler: inverse-CDF selection driven by a linear
    congruential generator.  It shares the contract of the torch sampler, not
    its random stream. *)

Definition lcg (g : Z) : Z :=
  (6364136223846793005 * g + 1442695040888963407) mod 2 ^ 64.

Fixpoint pick (w : list Q) (u : Q) (i : nat) : nat :=
  match w with
  | [] => i
  | x :: rest =>
      match rest with
      | [] => i
      | _ :: _ => if Qle_bool x u then pick rest (u - x)%Q (S i) else i
      end
  end.

Fixpoint draws (w : list Q) (total : Q) (n : nat) (g : Z) : list nat :=
  match n with
  | O => []
  | S n =>
      let g := lcg g in
      pick w (total * (g # 2 ^ 64))%Q 0 :: draws w total n g
  end.

Definition total_weight (w : list Q) : Q := foldr Qplus 0%Q w.

Definition usable_weights (w : list Q) : bool :=
  bool_decide (w ≠ []) && forallb (λ x, negb (Qle_bool x 0)) w.

(** Like the sampler of torch it refuses a number of samples that is not
    positive with a [ValueError]. *)
Definition weighted_sampler (w : list Q) (num_samples : Z) (replacement : bool)
    (s : Z) : result (list nat) :=
  if decide (num_samples ≤ 0) then Raise ValueError
  else if decide (- 2 ^ 63 ≤ s < 2 ^ 64) then
    if usable_weights w
    then Ok (draws w (total_weight w) (Z.to_nat num_samples) (s mod 2 ^ 64))
    else Raise RuntimeError
  else Raise RuntimeError.

(** Generators for that sampler: a state is the state of the congruential
    generator, a world is the state of the default generator, a new generator
    starts from the world, and seeding replaces the state by the seed. *)
Definition lcg_Generator (world : Z) : Z * Z := (lcg world, lcg world).

Definition lcg_manual_seed (g : Z) (sd : Z) : result Z :=
  if decide (- 2 ^ 63 ≤ sd < 2 ^ 64) then Ok (sd mod 2 ^ 64) else Raise RuntimeError.

Definition lcg_sample (w : list Q) (num_samples : Z) (replacement : bool) (g : Z)
    : result (list nat) * Z :=
  (if decide (num_samples ≤ 0) then Raise ValueError
   else if usable_weights w
        then Ok (draws w (total_weight w) (Z.to_nat num_samples) g)
        else Raise RuntimeError,
   Nat.iter (Z.to_nat num_samples) lcg g).

#[global] Instance lcg_random : Sampler.TorchRandom := {|
  Sampler.World := Z;
  Sampler.GenState := Z;
  Sampler.Generator := lcg_Generator;
  Sampler.manual_seed := lcg_manual_seed;
  Sampler.default_generator := λ world, world;
  Sampler.set_default_generator := λ _ g, g;
  Sampler.sample := lcg_sample;
|}.

(** *** A dataset of labelled utterances *)

Inductive phone : Type := A | B.

#[global] Instance phone_eq_dec : EqDecision phone.
Proof. solve_decision. Defined.

#[global] Instance phone_countable : Countable phone.
Proof.
  refine (inj_countable' (λ p, match p with A => false | B => true end)
                         (λ b, if b then B else A) _).
  by intros [].
Defined.

Record utterance : Type := mk_utterance { uid : nat; label : phone }.

Definition skewed_dataset : list utterance :=
  [mk_utterance 0 A; mk_utterance 1 A; mk_utterance 2 B; mk_utterance 3 A].

Definition single_dataset : list utterance := [mk_utterance 0 A].

(** *** A one-weight task: the gradient of a batch is its value, a batch
    without value gives a gradient norm that is not a number. *)

Record toy_task : Type := mk_toy {
  weight : Z;
  grad : option Z;
  training : bool;
}.

Definition toy_norm (g : option Z) : float :=
  match g with
  | Some g => PrimFloat.of_uint63 (Uint63.of_Z (Z.abs g))
  | None => PrimFloat.nan
  end.

Definition toy_forward (t : toy_task) (b : option Z) : toy_task * option Z := (t, b).

#[global] Instance toy : Train.Collaborators := {|
  Train.Task := toy_task;
  Train.Optimizer := Z;
  Train.Batch := option Z;
  Train.Output := option Z;
  Train.Cacheable := option Z;
  Train.Log := nat;
  Train.TaskCkpt := Z;
  Train.DatasetCkpt := unit;
  Train.Params := Z;
  Train.valid_dataset_ckpt := tt;
  Train.test_dataset_ckpt := tt;
  Train.load_checkpoint := λ w, mk_toy w (Some 0) false;
  Train.create_task := mk_toy 0 (Some 0) false;
  Train.save_checkpoint := weight;
  Train.parameters := weight;
  Train.Adam := 0;
  Train.zero_grad := λ t, mk_toy (weight t) (Some 0) (training t);
  Train.optimizer_step := λ t o,
    (mk_toy (weight t - default 0 (grad t)) (grad t) (training t), o + 1);
  Train.batch_to := λ b, b;
  Train.task_train := λ t, mk_toy (weight t) (grad t) true;
  Train.task_eval := λ t, mk_toy (weight t) (grad t) false;
  Train.train_step := toy_forward;
  Train.valid_step := toy_forward;
  Train.test_step := toy_forward;
  Train.backward := λ t r,
    mk_toy (weight t) (g ← grad t; x ← r; Some (g + x)) (training t);
  Train.clip_grad_norm_ := λ t, (t, toy_norm (grad t));
  Train.cacheable := λ r, r;
  Train.train_reduction := λ _ rs, [length rs];
  Train.valid_reduction := λ _ rs, [length rs];
  Train.test_reduction := λ _ rs, [length rs];
  Train.valid_dataloader := [Some 1];
  Train.test_dataloader := [Some 1; Some 2];
|}.

Definition empty_disk : Train.disk := ∅.

(** The default seed of the sampler. *)
Definition seed0 : Z := 12345678.

Definition default_args : Train.args :=
  Train.mk_args 200000 100 5000 100.

(** A state of the toy task before any batch. *)
Definition fresh_state : Train.state (C := toy) :=
  {| Train.pbar_n := 0; Train.task := mk_toy 5 (Some 0) false; Train.optimizer := 0;
     Train.batch_results := []; Train.files := ∅; Train.trace := [] |}.

(** The state a run is stopped in, and the state a start returns. *)
Definition is_interrupted (o : Train.run_outcome (C := toy)) : bool :=
  match o with Train.Interrupted _ => true | _ => false end.

Definition stopped_in (o : Train.run_outcome (C := toy)) : Train.state (C := toy) :=
  match o with
  | Train.Interrupted st | Train.Completed st => st
  | Train.Failed _ => fresh_state
  end.

Definition is_started (r : result (Train.state (C := toy))) : bool :=
  match r with Ok _ => true | Raise _ => false end.

Definition started (r : result (Train.state (C := toy))) : Train.state (C := toy) :=
  match r with Ok st => st | Raise _ => fresh_state end.

(** The directory a run of the toy task leaves when it is resumed from. *)
Definition resumed_disk : Train.disk (C := toy) :=
  {["task.ckpt" := Train.TaskFile (C := toy) 7]}.

(** The passes of a run of 99 batches and of a run of 250 batches. *)
Definition passes_99 : list (list (option Z)) := [replicate 99 (Some 1)].

Definition passes_250 : list (list (option Z)) :=
  [replicate 100 (Some 1); replicate 100 None; replicate 50 (Some 2)].

(** A run that is given three batches with [total_steps = 2]. *)
Definition short_args : Train.args := Train.mk_args 2 100 5000 100.

Definition passes_3 : list (list (option Z)) := [[Some 1; Some 2]; [Some 3]].

(** A weight function of the caller that returns six equal weights. *)
Definition six_weights (dataset : list utterance) : result (list Q) :=
  Ok [1; 1; 1; 1; 1; 1]%Q.

(** Arguments with [--log_step 0]. *)
Definition zero_log_args : Train.args := Train.mk_args 200000 0 5000 100.

(** Arguments that log every third, validate every fourth and save every
    fifth global step, and a run of twelve batches. *)
Definition small_args : Train.args := Train.mk_args 200000 3 4 5.

Definition passes_12 : list (list (option Z)) :=
  [[Some 1; None; Some 2; Some 3; Some 1]; []; [None; Some 4; Some 1; Some 2; None; Some 3; Some 1]].

(** Arguments under which every cadence fires at every global step. *)
Definition every_step_args : Train.args := Train.mk_args 200000 1 1 1.

(** A directory that holds an optimizer checkpoint and no task checkpoint. *)
Definition optimizer_only_disk : Train.disk (C := toy) :=
  {["optimizer.ckpt" := Train.OptimizerFile (C := toy) 41]}.

End Instances.

(** * Properties *)

(** ** The sampler *)

Module SamplerSpec.
Import Sampler.

Lemma bind_Ok {A B} (r : result A) (k : A → result B) (b : B) :
  (r ≫= k) = Ok b ↔ ∃ a, r = Ok a ∧ k a = Ok b.
Proof.
  destruct r as [a|e]; simpl.
  - split; [intros Hk; by exists a | by intros (a' & [= <-] & Hk)].
  - split; [done | by intros (a' & [=] & _)].
Qed.

Section Weights.
Context {Item Label : Type} `{Countable Label}.
Variable label : Item → Label.

Lemma Counter_get_update (c : gmap Label nat) (l l' : Label) :
  Counter_get (Counter_update c l) l' =
  if decide (l = l') then S (Counter_get c l') else Counter_get c l'.
Proof.
  unfold Counter_get, Counter_update.
  destruct (decide (l = l')) as [->|Hne].
  - by rewrite lookup_insert_eq.
  - by rewrite lookup_insert_ne.
Qed.

Lemma foldl_Counter_update (dataset : list Item) (c : gmap Label nat) (l : Label) :
  Counter_get (foldl (λ c item, Counter_update c (label item)) c dataset) l =
  (Counter_get c l + label_count label dataset l)%nat.
Proof.
  revert c. induction dataset as [|item rest IH]; intros c; simpl.
  - unfold label_count. simpl. lia.
  - rewrite IH, Counter_get_update. unfold label_count.
    rewrite filter_cons. destruct (decide (label item = l)); simpl; lia.
Qed.

Lemma count_labels_get (dataset : list Item) (l : Label) :
  Counter_get (count_labels label dataset) l = label_count label dataset l.
Proof. unfold count_labels. by rewrite foldl_Counter_update. Qed.

Lemma label_count_pos (dataset : list Item) (item : Item) :
  item ∈ dataset → (0 < label_count label dataset (label item))%nat.
Proof.
  intros Hin. unfold label_count.
  assert (Hf : item ∈ filter (λ x, label x = label item) dataset)
    by (by apply list_elem_of_filter).
  destruct (filter _ dataset); [by apply elem_of_nil in Hf | simpl; lia].
Qed.

Lemma assign_weights_Ok (n : nat) (c : gmap Label nat) (items : list Item) (acc : list Q) :
  (∀ item, item ∈ items → Counter_get c (label item) ≠ 0%nat) →
  assign_weights label n c items acc =
  Ok (acc ++ ((λ item, Z.of_nat n # Pos.of_nat (Counter_get c (label item))) <$> items)).
Proof.
  revert acc. induction items as [|item rest IH]; intros acc Hpos; simpl.
  - by rewrite app_nil_r.
  - unfold true_div. destruct (decide _) as [Hz|_].
    + exfalso. apply (Hpos item); [left | done].
    + simpl. rewrite IH.
      * by rewrite <- app_assoc.
      * intros it Hit. apply Hpos. by right.
Qed.

Lemma get_weights_Ok (dataset : list Item) :
  get_weights label dataset = Ok (inverse_frequency label dataset <$> dataset).
Proof.
  unfold get_weights. rewrite assign_weights_Ok.
  - simpl. f_equal. apply list_fmap_ext. intros i item _.
    unfold inverse_frequency. by rewrite count_labels_get.
  - intros item Hin. rewrite count_labels_get.
    pose proof (label_count_pos dataset item Hin). lia.
Qed.

Lemma inverse_frequency_pos (dataset : list Item) (item : Item) :
  item ∈ dataset → (0 < inverse_frequency label dataset item)%Q.
Proof.
  intros Hin. unfold inverse_frequency, Qlt. simpl.
  destruct dataset; [by apply elem_of_nil in Hin | simpl length; lia].
Qed.

Lemma get_weights_valid (dataset : list Item) (w : list Q) :
  dataset ≠ [] → get_weights label dataset = Ok w →
  valid_weights w ∧ length w = length dataset.
Proof.
  intros Hne. rewrite get_weights_Ok. intros [= <-].
  split; [split|].
  - destruct dataset; [done | discriminate].
  - apply Forall_fmap, Forall_forall. intros item Hin. simpl.
    by apply inverse_frequency_pos.
  - by rewrite length_fmap.
Qed.

(** C7. The default weight function gives every dataset exactly one weight
    per index; the weight at index [i] is [len(dataset)] divided by the
    number of items that share the label of item [i]; that number is what
    the counter built by the first pass holds for the label. *)
Theorem get_weights_inverse_class_frequency (dataset : list Item) :
  ∃ w, get_weights label dataset = Ok w
     ∧ length w = length dataset
     ∧ ∀ i item, dataset !! i = Some item →
         Counter_get (count_labels label dataset) (label item)
           = label_count label dataset (label item)
         ∧ (0 < label_count label dataset (label item))%nat
         ∧ w !! i = Some (inverse_frequency label dataset item)
         ∧ (inverse_frequency label dataset item
              == inject_Z (Z.of_nat (length dataset))
                 / inject_Z (Z.of_nat (label_count label dataset (label item))))%Q.
Proof.
  exists (inverse_frequency label dataset <$> dataset).
  split; [apply get_weights_Ok|]. split; [by rewrite length_fmap|].
  intros i item Hi.
  assert (Hpos : (0 < label_count label dataset (label item))%nat).
  { apply label_count_pos. by eapply list_elem_of_lookup_2. }
  split; [apply count_labels_get|]. split; [done|].
  rewrite list_lookup_fmap, Hi. simpl. split; [done|].
  unfold inverse_frequency.
  rewrite (Qmake_Qdiv (Z.of_nat (length dataset))).
  replace (Z.pos (Pos.of_nat (label_count label dataset (label item))))
    with (Z.of_nat (label_count label dataset (label item))); [reflexivity|].
  destruct (label_count label dataset (label item)) as [|c]; [lia|].
  rewrite <- Pos.of_nat_succ. lia.
Qed.

End Weights.

Section Batching.

Lemma batch_loop_lengths (bs : Z) (indices batch : list nat) :
  Forall (λ b, Z.of_nat (length b) = bs) (batch_loop bs indices batch).
Proof.
  revert batch. induction indices as [|i rest IH]; intros batch; simpl.
  - constructor.
  - destruct (decide _) as [Hfull|_]; [constructor; [done|]|]; apply IH.
Qed.

Lemma batch_loop_nonpos (bs : Z) (indices batch : list nat) :
  bs ≤ 0 → batch_loop bs indices batch = [].
Proof.
  intros Hbs. revert batch. induction indices as [|i rest IH]; intros batch; simpl.
  - done.
  - destruct (decide _) as [Hfull|_]; [|apply IH].
    rewrite length_app in Hfull. simpl in Hfull. lia.
Qed.

Lemma batch_loop_count (b : nat) (indices batch : list nat) :
  (0 < b)%nat → (length batch < b)%nat →
  length (batch_loop (Z.of_nat b) indices batch)
  = ((length batch + length indices) / b)%nat.
Proof.
  intros Hb. revert batch.
  induction indices as [|i rest IH]; intros batch Hlt; simpl.
  - rewrite Nat.add_0_r. by rewrite Nat.div_small.
  - destruct (decide _) as [Hfull|Hnot].
    + rewrite length_app in Hfull. simpl in Hfull. simpl.
      rewrite IH by (simpl; lia). simpl.
      replace (length batch + S (length rest))%nat
        with (length rest + 1 * b)%nat by lia.
      rewrite Nat.div_add by lia. lia.
    + rewrite length_app in Hnot. simpl in Hnot.
      rewrite IH by (rewrite length_app; simpl; lia).
      rewrite length_app. simpl. f_equal. lia.
Qed.

Lemma batch_loop_lookup (b : nat) (indices batch : list nat) (k : nat) (x : list nat) :
  (0 < b)%nat → (length batch < b)%nat →
  batch_loop (Z.of_nat b) indices batch !! k = Some x →
  x = take b (drop (k * b) (batch ++ indices)).
Proof.
  intros Hb. revert batch k.
  induction indices as [|i rest IH]; intros batch k Hlt; simpl.
  - done.
  - destruct (decide _) as [Hfull|Hnot].
    + rewrite length_app in Hfull. simpl in Hfull.
      assert (Hlen : length (batch ++ [i]) = b) by (rewrite length_app; simpl; lia).
      replace (batch ++ i :: rest) with ((batch ++ [i]) ++ rest)
        by (by rewrite <- app_assoc).
      destruct k as [|k].
      * intros [= <-]. rewrite Nat.mul_0_l, drop_0. by rewrite take_app_length'.
      * rewrite lookup_cons. intros Hk. apply IH in Hk; [|simpl; lia].
        rewrite app_nil_l in Hk.
        replace (S k * b)%nat with (b + k * b)%nat by lia.
        rewrite <- drop_drop. by rewrite (drop_app_length' _ _ b).
    + rewrite length_app in Hnot. simpl in Hnot. intros Hk.
      apply IH in Hk; [|rewrite length_app; simpl; lia].
      by rewrite <- app_assoc in Hk.
Qed.

Lemma batch_loop_concat (b : nat) (indices batch : list nat) :
  (0 < b)%nat → (length batch < b)%nat →
  concat (batch_loop (Z.of_nat b) indices batch)
  = take ((length batch + length indices) / b * b) (batch ++ indices).
Proof.
  intros Hb. revert batch.
  induction indices as [|i rest IH]; intros batch Hlt; simpl.
  - rewrite Nat.add_0_r, Nat.div_small by done. by rewrite take_0.
  - destruct (decide _) as [Hfull|Hnot].
    + rewrite length_app in Hfull. simpl in Hfull.
      assert (Hlen : length (batch ++ [i]) = b) by (rewrite length_app; simpl; lia).
      simpl. rewrite IH by (simpl; lia). simpl.
      replace (batch ++ i :: rest) with ((batch ++ [i]) ++ rest)
        by (by rewrite <- app_assoc).
      replace (length batch + S (length rest))%nat
        with (length rest + 1 * b)%nat by lia.
      rewrite Nat.div_add by lia.
      replace ((length rest / b + 1) * b)%nat
        with (length (batch ++ [i]) + length rest / b * b)%nat by lia.
      by rewrite take_app_add.
    + rewrite length_app in Hnot. simpl in Hnot.
      rewrite IH by (rewrite length_app; simpl; lia).
      rewrite length_app, <- app_assoc. simpl. do 3 f_equal. lia.
Qed.

End Batching.

Section Construction.
Context {Item Label : Type} `{Countable Label}.
Variable label : Item → Label.

Lemma init_default (dataset : list Item) (bs dup sd : Z) :
  __init__ label dataset bs None dup sd =
  Ok {| epoch := 0; seed := sd; batch_size := bs; duplicate := dup;
        weights := inverse_frequency label dataset <$> dataset |}.
Proof. unfold __init__. simpl. by rewrite get_weights_Ok. Qed.

(** C4, as the code has it.  Construction checks neither the batch size nor
    the dataset: with the default weight function it returns a sampler for
    every dataset, the empty one included, and every batch size, zero and
    negative ones included; the sampler holds epoch 0, the arguments and the
    weights.  With a weight function of the caller it fails exactly when
    that function does. *)
Theorem init_checks_nothing (dataset : list Item) (bs dup sd : Z) :
  (∃ s, __init__ label dataset bs None dup sd = Ok s
      ∧ epoch s = 0 ∧ seed s = sd ∧ batch_size s = bs ∧ duplicate s = dup
      ∧ get_weights label dataset = Ok (weights s))
  ∧ ∀ f, is_Ok (__init__ label dataset bs (Some f) dup sd) ↔ is_Ok (f dataset).
Proof.
  split.
  - eexists. split; [apply init_default|]. simpl.
    repeat split. apply get_weights_Ok.
  - intros f. unfold __init__, is_Ok. simpl.
    destruct (f dataset) as [w|e]; simpl; split; intros [x Hx]; eauto; discriminate.
Qed.

End Construction.

Section Iteration.
Context {Item Label : Type} `{Countable Label}.
Variable label : Item → Label.
Variable WeightedRandomSampler : list Q → Z → bool → Z → result (list nat).

Hypothesis draw_ok : draw_contract WeightedRandomSampler.

Lemma iter_shape (dataset : list Item) (bs dup sd e : Z) (s : sampler) :
  __init__ label dataset bs None dup sd = Ok s →
  dataset ≠ [] → 0 < dup → valid_seed (e + sd) →
  ∃ indices,
    WeightedRandomSampler (weights s) (Z.of_nat (length dataset) * dup) true (e + sd)
      = Ok indices
    ∧ draw_indices WeightedRandomSampler (set_epoch s e) = Ok indices
    ∧ Z.of_nat (length indices) = Z.of_nat (length dataset) * dup
    ∧ Forall (λ i, (i < length dataset)%nat) indices
    ∧ __iter__ WeightedRandomSampler (set_epoch s e) = Ok (batch_loop bs indices [])
    ∧ __len__ WeightedRandomSampler (set_epoch s e)
        = Ok (length (batch_loop bs indices [])).
Proof.
  rewrite init_default. intros [= <-] Hne Hdup Hseed. simpl.
  destruct (get_weights_valid label dataset _ Hne (get_weights_Ok label dataset))
    as [Hvalid Hlen].
  assert (Hn : 0 < Z.of_nat (length dataset) * dup).
  { destruct dataset; [done | simpl length; lia]. }
  destruct (draw_ok _ _ _ Hvalid Hn Hseed) as (indices & Hdraw & Hcount & Hrange).
  exists indices. unfold __len__, __iter__, draw_indices. simpl.
  rewrite !Hlen, Hdraw. simpl. rewrite Hlen in Hrange.
  repeat split; try done. lia.
Qed.

(** C3, as the code has it.  The batch at position [k] is the run of
    [batch_size] consecutive draws that starts at draw [k * batch_size], in
    draw order, and every draw is an index of the dataset; the draws are
    made with replacement and nothing removes a repeat, so a batch repeats
    an index whenever its run of draws does. *)
Theorem batches_are_runs_of_draws (dataset : list Item) (bs dup sd e : Z)
    (s : sampler) (batches : list (list nat)) :
  __init__ label dataset bs None dup sd = Ok s →
  dataset ≠ [] → 0 < dup → valid_seed (e + sd) →
  __iter__ WeightedRandomSampler (set_epoch s e) = Ok batches →
  ∃ indices,
    draw_indices WeightedRandomSampler (set_epoch s e) = Ok indices
    ∧ Forall (λ i, (i < length dataset)%nat) indices
    ∧ ∀ k batch, batches !! k = Some batch →
        batch = take (Z.to_nat bs) (drop (k * Z.to_nat bs) indices)
        ∧ (NoDup batch ↔ NoDup (take (Z.to_nat bs) (drop (k * Z.to_nat bs) indices))).
Proof.
  intros Hinit Hne Hdup Hseed Hiter.
  destruct (iter_shape _ _ _ _ _ _ Hinit Hne Hdup Hseed)
    as (indices & _ & Hdraw & _ & Hrange & Hit & _).
  rewrite Hit in Hiter. injection Hiter as <-.
  exists indices. split; [done|]. split; [done|].
  intros k batch Hk.
  assert (Hb : batch = take (Z.to_nat bs) (drop (k * Z.to_nat bs) indices)).
  { destruct (decide (bs ≤ 0)) as [Hle|Hgt].
    - by rewrite batch_loop_nonpos in Hk.
    - rewrite <- (Z2Nat.id bs) in Hk by lia.
      apply batch_loop_lookup in Hk; [done | lia | simpl; lia]. }
  split; [done | by rewrite <- Hb].
Qed.

(** C8, as the code has it.  On a dataset that is not empty, with a
    positive duplication factor and a seed that torch accepts, iteration
    draws exactly [len(dataset) * duplicate] indices of the dataset from
    [WeightedRandomSampler], called with the weight vector, replacement and
    a generator seeded with [epoch + seed]; [len] is the number of batches
    the batching loop makes of those draws. *)
Theorem iter_draws_len_times_duplicate (dataset : list Item) (bs dup sd e : Z)
    (s : sampler) :
  __init__ label dataset bs None dup sd = Ok s →
  dataset ≠ [] → 0 < dup → valid_seed (e + sd) →
  ∃ indices,
    WeightedRandomSampler (weights s) (Z.of_nat (length dataset) * dup) true (e + sd)
      = Ok indices
    ∧ draw_indices WeightedRandomSampler (set_epoch s e) = Ok indices
    ∧ Z.of_nat (length indices) = Z.of_nat (length dataset) * dup
    ∧ Forall (λ i, (i < length dataset)%nat) indices
    ∧ __iter__ WeightedRandomSampler (set_epoch s e) = Ok (batch_loop bs indices [])
    ∧ __len__ WeightedRandomSampler (set_epoch s e)
        = Ok (length (batch_loop bs indices []))
    ∧ (0 < bs → Z.of_nat (length (batch_loop bs indices []))
                = (Z.of_nat (length dataset) * dup) `div` bs).
Proof.
  intros Hinit Hne Hdup Hseed.
  destruct (iter_shape _ _ _ _ _ _ Hinit Hne Hdup Hseed)
    as (indices & Hcall & Hdraw & Hcount & Hrange & Hit & Hlen).
  exists indices. repeat (split; [done|]).
  intros Hbs. rewrite <- (Z2Nat.id bs) at 1 by lia.
  rewrite batch_loop_count by (simpl; lia). simpl.
  rewrite Nat2Z.inj_div, Hcount, Z2Nat.id; lia.
Qed.

(** C10. Every batch that iteration emits has exactly [batch_size] indices;
    the batches are, in order, the first
    [floor(len(dataset) * duplicate / batch_size) * batch_size] draws, so the
    draws left over at the end are in no batch; the number of batches, and
    [len], is [floor(len(dataset) * duplicate / batch_size)]. *)
Theorem iter_emits_full_batches_only (dataset : list Item) (bs dup sd e : Z)
    (s : sampler) :
  __init__ label dataset bs None dup sd = Ok s →
  dataset ≠ [] → 0 < dup → 0 < bs → valid_seed (e + sd) →
  ∃ indices batches,
    draw_indices WeightedRandomSampler (set_epoch s e) = Ok indices
    ∧ __iter__ WeightedRandomSampler (set_epoch s e) = Ok batches
    ∧ Forall (λ batch, Z.of_nat (length batch) = bs) batches
    ∧ Z.of_nat (length batches) = (Z.of_nat (length dataset) * dup) `div` bs
    ∧ concat batches = take (length batches * Z.to_nat bs) indices
    ∧ __len__ WeightedRandomSampler (set_epoch s e) = Ok (length batches).
Proof.
  intros Hinit Hne Hdup Hbs Hseed.
  destruct (iter_shape _ _ _ _ _ _ Hinit Hne Hdup Hseed)
    as (indices & _ & Hdraw & Hcount & _ & Hit & Hlen).
  exists indices, (batch_loop bs indices []).
  split; [done|]. split; [done|]. split; [apply batch_loop_lengths|].
  assert (Hn : length (batch_loop bs indices []) = (length indices / Z.to_nat bs)%nat).
  { rewrite <- (Z2Nat.id bs) at 1 by lia. by rewrite batch_loop_count by (simpl; lia). }
  split; [|split; [|done]].
  - rewrite Hn, Nat2Z.inj_div, Hcount, Z2Nat.id; lia.
  - rewrite Hn. rewrite <- (Z2Nat.id bs) at 1 by lia.
    by rewrite batch_loop_concat by (simpl; lia).
Qed.

End Iteration.

Section Generators.
Context {T : TorchRandom}.
Hypothesis seed_resets : seeding_contract T.

(** What an iteration yields, in terms of the seeded state alone. *)
Lemma iter_in_world_batches (world : World) (s : sampler) (g0 : GenState) :
  (iter_in_world world s).1 = __iter__ (seeded_sampler g0) s
  ∧ (iter_in_world world s).2 = (Generator world).2.
Proof.
  unfold iter_in_world, __iter__, draw_indices, seeded_sampler.
  destruct (Generator world) as [g world'] eqn:Hgen. simpl.
  rewrite (seed_resets g0 g).
  destruct (manual_seed g (epoch s + seed s)) as [g1|e]; simpl; [|done].
  by destruct (sample _ _ _ g1) as [[indices|e] g2].
Qed.

(** C6. The batches of an iteration are a function of the weight vector,
    the batch size, the duplication factor and [epoch + seed] and of
    nothing else: they are the same in every world, since the generator is
    new, is seeded before the draw and is the one the draw is given; an
    iteration leaves the default generator to the world, so a second
    iteration after the first yields the same batches again. *)
Theorem iter_has_no_hidden_input (world world' : World) (s s' : sampler) :
  weights s = weights s' → batch_size s = batch_size s' →
  duplicate s = duplicate s' → epoch s + seed s = epoch s' + seed s' →
  (iter_in_world world s).1 = (iter_in_world world' s').1
  ∧ (iter_in_world (iter_in_world world s).2 s).1 = (iter_in_world world s).1
  ∧ (iter_in_world world s).2 = (Generator world).2
  ∧ ∀ g0, (iter_in_world world s).1 = __iter__ (seeded_sampler g0) s.
Proof.
  intros Hw Hb Hd He.
  destruct (Generator world) as [g0 w0] eqn:Hgen.
  pose proof (iter_in_world_batches world s g0) as [H1 H2].
  pose proof (iter_in_world_batches world' s' g0) as [H1' _].
  pose proof (iter_in_world_batches (iter_in_world world s).2 s g0) as [H1'' _].
  rewrite Hgen in H2.
  split; [|split; [congruence|split; [done|]]].
  - rewrite H1, H1'. unfold __iter__, draw_indices. by rewrite Hw, Hb, Hd, He.
  - intros g1. by destruct (iter_in_world_batches world s g1).
Qed.

End Generators.

End SamplerSpec.

(** ** The executable sampler meets the contract *)

Module InstancesSpec.
Import Sampler Instances SamplerSpec.

Lemma pick_bound (w : list Q) (u : Q) (i : nat) :
  w ≠ [] → (pick w u i < i + length w)%nat.
Proof.
  revert u i. induction w as [|x rest IH]; intros u i Hne; [done|].
  simpl. destruct rest as [|y rest]; [simpl; lia|].
  destruct (Qle_bool x u); [|simpl; lia].
  specialize (IH (u - x)%Q (S i)). simpl in IH |- *.
  assert (y :: rest ≠ []) by done. specialize (IH H). lia.
Qed.

Lemma draws_length (w : list Q) (total : Q) (n : nat) (g : Z) :
  length (draws w total n g) = n.
Proof. revert g. induction n as [|n IH]; intros g; simpl; [done | by rewrite IH]. Qed.

Lemma draws_range (w : list Q) (total : Q) (n : nat) (g : Z) :
  w ≠ [] → Forall (λ i, (i < length w)%nat) (draws w total n g).
Proof.
  intros Hne. revert g. induction n as [|n IH]; intros g; simpl; constructor.
  - apply (pick_bound w _ 0%nat Hne).
  - apply IH.
Qed.

Lemma usable_weights_valid (w : list Q) :
  valid_weights w → usable_weights w = true.
Proof.
  intros [Hne Hpos]. unfold usable_weights.
  rewrite bool_decide_eq_true_2 by done. simpl.
  apply forallb_forall. intros x Hx.
  rewrite Forall_forall in Hpos. apply list_elem_of_In, Hpos in Hx.
  destruct (Qle_bool x 0) eqn:Hle; [|done].
  apply Qle_bool_iff in Hle. exfalso. by apply (Qlt_not_le 0 x).
Qed.

Lemma weighted_sampler_contract : draw_contract weighted_sampler.
Proof.
  intros w n s Hw Hn Hs. unfold weighted_sampler.
  destruct (decide (n ≤ 0)) as [Hle|_]; [lia|].
  destruct (decide _) as [_|Hbad]; [|by destruct Hbad].
  rewrite (usable_weights_valid w Hw). eexists. split; [done|]. split.
  - apply draws_length.
  - apply draws_range. by destruct Hw.
Qed.

Lemma lcg_random_seeding : seeding_contract lcg_random.
Proof. intros g g' sd. reflexivity. Qed.

End InstancesSpec.

(** ** The training script *)

Module TrainSpec.
Import Train.

Lemma py_mod_Ok (a b r : Z) : py_mod a b = Ok r ↔ b ≠ 0 ∧ r = a mod b.
Proof.
  unfold py_mod. destruct (decide (b = 0)) as [->|Hb].
  - split; [done | by intros [? _]].
  - split; [by intros [= <-] | by intros [_ ->]].
Qed.

Section Controller.
Context {C : Collaborators}.

Lemma log_all_routine (logs : list Log) : Forall routine (log_all INFO logs).
Proof. unfold log_all. apply Forall_fmap, Forall_forall. by intros. Qed.

Lemma routine_saved_steps (more : list event) :
  Forall routine more → saved_steps more = [].
Proof.
  induction 1 as [|e more He _ IH]; [done|].
  destruct e as [[] []| |]; simpl in He; try done; exact IH.
Qed.

Lemma routine_optimizer_steps (more : list event) :
  Forall routine more → optimizer_steps more = [].
Proof.
  induction 1 as [|e more He _ IH]; [done|].
  destruct e as [[] []| |]; simpl in He; try done; exact IH.
Qed.

Lemma saved_steps_app (tr more : list event) :
  saved_steps (tr ++ more) = saved_steps tr ++ saved_steps more.
Proof. apply omap_app. Qed.

Lemma optimizer_steps_app (tr more : list event) :
  optimizer_steps (tr ++ more) = optimizer_steps tr ++ optimizer_steps more.
Proof. apply omap_app. Qed.

Lemma valid_loop_parameters `{!GradientsOnly C} (batches : list Batch)
    (t : Task) (acc : list Cacheable) :
  parameters (valid_loop t batches acc).1 = parameters t.
Proof.
  revert t acc. induction batches as [|b rest IH]; intros t acc; simpl; [done|].
  destruct (valid_step t (batch_to b)) as [t' r] eqn:Hstep.
  rewrite IH. by rewrite <- (valid_step_parameters t (batch_to b)), Hstep.
Qed.

Lemma log_cadence_inv (a : args) (st st' : state) :
  log_cadence a st = Ok st' →
  log_step a ≠ 0 ∧ pbar_n st' = pbar_n st ∧ task st' = task st
  ∧ optimizer st' = optimizer st ∧ files st' = files st
  ∧ ∃ more, trace st' = trace st ++ more ∧ Forall routine more.
Proof.
  unfold log_cadence. intros Hrun. apply SamplerSpec.bind_Ok in Hrun as (r & Hr & Hrun).
  apply py_mod_Ok in Hr as [Hne _]. split; [done|].
  destruct (decide (r = 0)); injection Hrun as <-; simpl.
  - repeat (split; [done|]). eexists. split; [done|].
    constructor; [done | apply log_all_routine].
  - repeat (split; [done|]). exists []. by rewrite app_nil_r.
Qed.

Lemma eval_cadence_inv (a : args) (st st' : state) :
  eval_cadence a st = Ok st' →
  eval_step a ≠ 0 ∧ pbar_n st' = pbar_n st
  ∧ optimizer st' = optimizer st ∧ files st' = files st
  ∧ (GradientsOnly C → parameters (task st') = parameters (task st))
  ∧ ∃ more, trace st' = trace st ++ more ∧ Forall routine more.
Proof.
  unfold eval_cadence. intros Hrun. apply SamplerSpec.bind_Ok in Hrun as (r & Hr & Hrun).
  apply py_mod_Ok in Hr as [Hne _]. split; [done|].
  destruct (decide (r = 0)).
  - destruct (valid_loop _ _ _) as [t rs] eqn:Hloop.
    injection Hrun as <-; simpl. repeat (split; [done|]). split.
    + intros G. replace t with (valid_loop (task_eval (task st)) valid_dataloader []).1
        by (by rewrite Hloop).
      by rewrite valid_loop_parameters, task_eval_parameters.
    + eexists. split; [done|]. constructor; [done | apply log_all_routine].
  - injection Hrun as <-. repeat (split; [done|]).
    exists []. by rewrite app_nil_r.
Qed.

Lemma save_cadence_inv (a : args) (st st' : state) :
  save_cadence a st = Ok st' →
  save_step a ≠ 0 ∧ pbar_n st' = pbar_n st ∧ task st' = task st
  ∧ optimizer st' = optimizer st
  ∧ trace st' = trace st
      ++ (if decide (fires a (pbar_n st)) then [CheckpointSaved (pbar_n st)] else [])
  ∧ files st' =
      if decide (fires a (pbar_n st))
      then <["optimizer.ckpt" := OptimizerFile (optimizer st)]>
             (<["task.ckpt" := TaskFile (save_checkpoint (task st))]> (files st))
      else files st.
Proof.
  unfold save_cadence, fires. intros Hrun.
  apply SamplerSpec.bind_Ok in Hrun as (r & Hr & Hrun).
  apply py_mod_Ok in Hr as [Hne ->]. split; [done|].
  destruct (decide (_ = 0)) as [Hz|Hnz]; injection Hrun as <-;
    destruct (decide (fires a (pbar_n st))) as [Hf|Hf];
    unfold fires in Hf; simpl; try done.
  by rewrite app_nil_r.
Qed.

Lemma update_phase_inv (st : state) (batch : Batch) (t : Task) (r : Output) (gn : float) :
  forward_backward (task st) batch = (t, r, gn) →
  pbar_n (update_phase st batch) = pbar_n st + 1
  ∧ files (update_phase st batch) = files st
  ∧ (PrimFloat.is_nan gn = true →
       task (update_phase st batch) = t
       ∧ optimizer (update_phase st batch) = optimizer st
       ∧ trace (update_phase st batch)
           = trace st ++ [Logged WARNING (GradNormNaN (pbar_n st + 1))])
  ∧ (PrimFloat.is_nan gn = false →
       task (update_phase st batch) = (optimizer_step t (optimizer st)).1
       ∧ optimizer (update_phase st batch) = (optimizer_step t (optimizer st)).2
       ∧ trace (update_phase st batch)
           = trace st ++ [OptimizerStepped (pbar_n st + 1)]).
Proof.
  intros Hfb. unfold update_phase. rewrite Hfb.
  destruct (PrimFloat.is_nan gn).
  - simpl. repeat split; done.
  - destruct (optimizer_step t (optimizer st)) as [t' o'].
    simpl. repeat split; done.
Qed.

Lemma forward_backward_parameters `{!GradientsOnly C} (t0 : Task) (batch : Batch)
    (t : Task) (r : Output) (gn : float) :
  forward_backward t0 batch = (t, r, gn) → parameters t = parameters t0.
Proof.
  unfold forward_backward.
  destruct (train_step _ _) as [t1 r1] eqn:Hstep.
  destruct (clip_grad_norm_ _) as [t2 g2] eqn:Hclip.
  intros [= <- <- <-].
  replace t2 with (clip_grad_norm_ (backward t1 r1)).1 by (by rewrite Hclip).
  rewrite clip_grad_norm_parameters, backward_parameters.
  replace t1 with (train_step (task_train (zero_grad t0)) (batch_to batch)).1
    by (by rewrite Hstep).
  by rewrite train_step_parameters, task_train_parameters, zero_grad_parameters.
Qed.

(** What the three cadences of one batch leave as they found it. *)
Lemma cadences_inv (a : args) (st0 st' : state) :
  (st ← log_cadence a st0; st ← eval_cadence a st; save_cadence a st) = Ok st' →
  log_step a ≠ 0 ∧ eval_step a ≠ 0 ∧ save_step a ≠ 0
  ∧ pbar_n st' = pbar_n st0 ∧ optimizer st' = optimizer st0
  ∧ (GradientsOnly C → parameters (task st') = parameters (task st0))
  ∧ (∃ more, trace st' = trace st0 ++ more
       ++ (if decide (fires a (pbar_n st0)) then [CheckpointSaved (pbar_n st0)] else [])
       ∧ Forall routine more)
  ∧ files st' =
      if decide (fires a (pbar_n st0))
      then <["optimizer.ckpt" := OptimizerFile (optimizer st')]>
             (<["task.ckpt" := TaskFile (save_checkpoint (task st'))]> (files st0))
      else files st0.
Proof.
  intros Hrun.
  apply SamplerSpec.bind_Ok in Hrun as (st1 & H1 & Hrun).
  apply SamplerSpec.bind_Ok in Hrun as (st2 & H2 & H3).
  apply log_cadence_inv in H1 as (Hl & Hn1 & Ht1 & Ho1 & Hf1 & more1 & Htr1 & Hm1).
  apply eval_cadence_inv in H2 as (He & Hn2 & Ho2 & Hf2 & Hp2 & more2 & Htr2 & Hm2).
  apply save_cadence_inv in H3 as (Hs & Hn3 & Ht3 & Ho3 & Htr3 & Hf3).
  repeat (split; [done || congruence|]).
  split; [intros G; rewrite Ht3, Hp2 by done; congruence|].
  rewrite Hn2, Hn1 in Htr3, Hf3. split.
  - exists (more1 ++ more2). split; [|by apply Forall_app].
    rewrite Htr3, Htr2, Htr1. by rewrite <- !app_assoc.
  - by rewrite Hf3, Ht3, Ho3, Hf2, Hf1.
Qed.

Lemma cadences_total (a : args) (st0 : state) :
  log_step a ≠ 0 → eval_step a ≠ 0 → save_step a ≠ 0 →
  is_Ok (st ← log_cadence a st0; st ← eval_cadence a st; save_cadence a st).
Proof.
  intros Hl He Hs.
  assert (H1 : is_Ok (log_cadence a st0)).
  { unfold log_cadence, py_mod. rewrite decide_False by done. simpl.
    destruct (decide _); by eexists. }
  destruct H1 as [st1 ->]. simpl.
  assert (H2 : is_Ok (eval_cadence a st1)).
  { unfold eval_cadence, py_mod. rewrite decide_False by done. simpl.
    destruct (decide _); [destruct (valid_loop _ _ _)|]; by eexists. }
  destruct H2 as [st2 ->]. simpl.
  unfold save_cadence, py_mod. rewrite decide_False by done. simpl.
  destruct (decide _); by eexists.
Qed.

(** *** Runs of the training loop *)

Lemma cadence_steps_0 (a : args) (n : Z) : cadence_steps a n 0 = [].
Proof. unfold cadence_steps. by rewrite seqZ_nil. Qed.

Lemma cadence_steps_1 (a : args) (n : Z) :
  cadence_steps a n 1 = if decide (fires a (n + 1)) then [n + 1] else [].
Proof.
  unfold cadence_steps. rewrite seqZ_cons, seqZ_nil by lia.
  by rewrite filter_cons, filter_nil.
Qed.

Lemma cadence_steps_add (a : args) (n k1 k2 : Z) :
  0 ≤ k1 → 0 ≤ k2 →
  cadence_steps a n (k1 + k2) = cadence_steps a n k1 ++ cadence_steps a (n + k1) k2.
Proof.
  intros H1 H2. unfold cadence_steps. rewrite seqZ_app, filter_app by done.
  do 3 f_equal. lia.
Qed.

Lemma extends_same (a : args) (st st' : state) :
  pbar_n st' = pbar_n st → trace st' = trace st → files st' = files st →
  extends a 0 st st'.
Proof.
  intros Hn Ht Hf. split.
  - lia.
  - exists []. rewrite app_nil_r, cadence_steps_0. repeat split; [done|].
    apply not_elem_of_nil.
  - done.
  - by rewrite cadence_steps_0.
  - intros name _. by rewrite Hf.
Qed.

Lemma extends_trans (a : args) (k1 k2 : Z) (st st1 st2 : state) :
  0 ≤ k1 → 0 ≤ k2 →
  extends a k1 st st1 → extends a k2 st1 st2 → extends a (k1 + k2) st st2.
Proof.
  intros Hk1 Hk2 [Hn1 (new1 & Ht1 & Hs1 & Hx1) Hq1 Hsv1 Hfr1]
                 [Hn2 (new2 & Ht2 & Hs2 & Hx2) Hq2 Hsv2 Hfr2].
  rewrite Hn1 in Hs2, Hq2, Hsv2. split.
  - lia.
  - exists (new1 ++ new2). rewrite Ht2, Ht1, <- app_assoc. split; [done|]. split.
    + by rewrite saved_steps_app, Hs1, Hs2, cadence_steps_add.
    + rewrite elem_of_app. tauto.
  - rewrite cadence_steps_add by done. intros [H1 H2]%app_eq_nil.
    by rewrite Hq2, Hq1.
  - rewrite cadence_steps_add by done. intros Hne.
    destruct (cadence_steps a (pbar_n st + k1) k2) as [|g gs] eqn:H2.
    + rewrite Hq2 by done. apply Hsv1. by rewrite app_nil_r in Hne.
    + by apply Hsv2.
  - intros name Hname. by rewrite Hfr2, Hfr1.
Qed.

Lemma extends_dom (a : args) (k : Z) (st st' : state) :
  extends a k st st' → cadence_steps a (pbar_n st) k ≠ [] →
  dom (files st') = dom (files st) ∪ checkpoint_names.
Proof.
  intros [_ _ _ Hsv Hfr] Hne. destruct (Hsv Hne) as (c & o & Hc & Ho).
  unfold disk in *. apply set_eq. intros name.
  rewrite elem_of_union, !elem_of_dom.
  destruct (decide (name ∈ checkpoint_names)) as [Hin|Hout].
  - split; [by right|]. intros _. unfold checkpoint_names in Hin.
    apply elem_of_union in Hin as [Hin|Hin]; apply elem_of_singleton in Hin;
      subst name; by eexists.
  - rewrite Hfr by done. tauto.
Qed.

Lemma routine_no_test (more : list event) :
  Forall routine more → Logged INFO TestHeader ∉ more.
Proof.
  intros Hall Hin. rewrite Forall_forall in Hall. by apply Hall in Hin.
Qed.

Lemma train_body_extends (a : args) (st st' : state) (batch : Batch) :
  train_body a st batch = Ok st' → nonzero_steps a ∧ extends a 1 st st'.
Proof.
  unfold train_body. intros Hrun.
  destruct (forward_backward (task st) batch) as [[t r] gn] eqn:Hfb.
  destruct (update_phase_inv st batch t r gn Hfb) as (Hn & Hf & Hnan & Hfin).
  apply cadences_inv in Hrun
    as (Hl & He & Hs & Hn' & _ & _ & (more & Htr & Hm) & Hfiles).
  rewrite Hn in Hn', Htr, Hfiles. rewrite Hf in Hfiles.
  split; [done|].
  assert (Hup : ∃ e, trace (update_phase st batch) = trace st ++ [e]
                   ∧ saved_steps [e] = [] ∧ e ≠ Logged INFO TestHeader).
  { destruct (PrimFloat.is_nan gn).
    - destruct Hnan as (_ & _ & ->); [done|]. by eexists.
    - destruct Hfin as (_ & _ & ->); [done|]. by eexists. }
  destruct Hup as (e & Hup & Hse & Hne). rewrite Hup in Htr.
  unfold disk in *. split.
  - done.
  - eexists. rewrite Htr, <- app_assoc. split; [done|].
    rewrite cadence_steps_1. split.
    + rewrite !saved_steps_app, Hse, routine_saved_steps by done.
      by destruct (decide _).
    + rewrite !elem_of_app, list_elem_of_singleton.
      intros [Hin|[Hin|Hin]]; [congruence | by apply routine_no_test in Hin |].
      destruct (decide _); [by apply list_elem_of_singleton in Hin|].
      by apply elem_of_nil in Hin.
  - rewrite cadence_steps_1, Hfiles. by destruct (decide _).
  - rewrite cadence_steps_1, Hfiles. destruct (decide _); [intros _|done].
    eexists _, _. unfold disk. rewrite lookup_insert_ne, !lookup_insert_eq by done. done.
  - intros name Hname. rewrite Hfiles. destruct (decide _); [|done].
    unfold checkpoint_names in Hname. unfold disk.
    rewrite !lookup_insert_ne; [done | |];
      intros <-; apply Hname; rewrite elem_of_union, !elem_of_singleton; tauto.
Qed.

Lemma train_body_total (a : args) (st : state) (batch : Batch) :
  nonzero_steps a → is_Ok (train_body a st batch).
Proof. intros (Hl & He & Hs). by apply cadences_total. Qed.

Lemma train_for_extends (a : args) (batches : list Batch) (st st' : state) :
  train_for a batches st = Ok st' → extends a (Z.of_nat (length batches)) st st'.
Proof.
  revert st. induction batches as [|batch rest IH]; intros st; simpl.
  - intros [= <-]. by apply extends_same.
  - intros Hrun. apply SamplerSpec.bind_Ok in Hrun as (st1 & H1 & Hrest).
    apply train_body_extends in H1 as [_ H1]. apply IH in Hrest.
    replace (Z.of_nat (S (length rest))) with (1 + Z.of_nat (length rest)) by lia.
    eapply extends_trans; [lia | lia | done | done].
Qed.

Lemma train_for_total (a : args) (batches : list Batch) (st : state) :
  nonzero_steps a → is_Ok (train_for a batches st).
Proof.
  intros Hnz. revert st. induction batches as [|batch rest IH]; intros st; simpl.
  - by eexists.
  - destruct (train_body_total a st batch Hnz) as [st1 ->]. simpl. apply IH.
Qed.

Lemma train_pass_extends (a : args) (batches : list Batch) (st st' : state) :
  train_pass a batches st = Ok st' → extends a (Z.of_nat (length batches)) st st'.
Proof.
  unfold train_pass. intros Hrun. apply train_for_extends in Hrun.
  replace (Z.of_nat (length batches)) with (0 + Z.of_nat (length batches)) by lia.
  eapply extends_trans; [lia | lia | | done]. by apply extends_same.
Qed.

(** The loop of [main] has no way out: while the run is observed it is
    either still running or has stopped on an exception. *)
Lemma while_True_outcome (a : args) (passes : list (list Batch)) (st : state) :
  match while (λ _, true) (train_pass a) passes st with
  | Exited _ => False
  | Running st' => extends a (Z.of_nat (length (concat passes))) st st'
  | Raised _ => ¬ nonzero_steps a
  end.
Proof.
  revert st. induction passes as [|batches rest IH]; intros st; simpl.
  - by apply extends_same.
  - destruct (train_pass a batches st) as [st1|e] eqn:Hpass.
    + apply train_pass_extends in Hpass. specialize (IH st1).
      destruct (while _ _ rest st1) as [|st'|]; [done| |done].
      rewrite length_app, Nat2Z.inj_add.
      eapply extends_trans; [lia | lia | done | done].
    + intros Hnz. destruct (train_for_total a batches
        {| pbar_n := pbar_n st; task := task st; optimizer := optimizer st;
           batch_results := []; files := files st; trace := trace st |} Hnz)
        as [st1 Hok].
      unfold train_pass in Hpass. congruence.
Qed.

Lemma startup_inv (d : disk) (st : state) :
  startup d = Ok st →
  pbar_n st = 0 ∧ batch_results st = []
  ∧ files st = <["test_dataset.ckpt" := DatasetFile test_dataset_ckpt]>
                 (<["valid_dataset.ckpt" := DatasetFile valid_dataset_ckpt]> d)
  ∧ (trace st = preparing ++ [Logged INFO LastCheckpointFound]
     ∨ trace st = preparing ++ [Logged INFO NoLastCheckpointFound]).
Proof.
  unfold startup. intros Hrun.
  apply SamplerSpec.bind_Ok in Hrun as (lt & _ & Hrun).
  destruct lt as [ckpt|];
    apply SamplerSpec.bind_Ok in Hrun as (lo & _ & [= <-]); simpl; auto 6.
Qed.

(** C1, as the code has it.  When [task.ckpt] exists at startup, the task is
    the one loaded from it and the optimizer state is the one of
    [optimizer.ckpt] when that file exists, a fresh [Adam] otherwise; the
    step counter is not stored in either file and is not restored: the
    progress bar starts at 0, and the first batch after the resume is
    global step 1. *)
Theorem resume_restores_task_and_restarts_counter (d : disk) (ckpt : TaskCkpt) :
  d !! "task.ckpt" = Some (TaskFile ckpt) →
  (∀ f, d !! "optimizer.ckpt" = Some f → ∃ o, f = OptimizerFile o) →
  ∃ st, startup d = Ok st
      ∧ task st = load_checkpoint ckpt
      ∧ optimizer st = match d !! "optimizer.ckpt" with
                       | Some (OptimizerFile o) => o
                       | _ => Adam
                       end
      ∧ pbar_n st = 0
      ∧ ∀ a batch st', train_body a st batch = Ok st' → pbar_n st' = 1.
Proof.
  intros Htask Hopt. unfold startup, read_task, read_optimizer, disk in *.
  rewrite !lookup_insert_ne by done. rewrite Htask. simpl.
  destruct (d !! "optimizer.ckpt") as [f|] eqn:Hf.
  - destruct (Hopt f eq_refl) as [o ->]. simpl.
    eexists. split; [done|]. simpl. repeat (split; [done|]).
    intros a batch st' Hrun. apply train_body_extends in Hrun as [_ [Hn _ _]].
    by rewrite Hn.
  - simpl. eexists. split; [done|]. simpl. repeat (split; [done|]).
    intros a batch st' Hrun. apply train_body_extends in Hrun as [_ [Hn _ _]].
    by rewrite Hn.
Qed.

(** C2. On a batch whose gradient norm is not a number the body logs the
    warning, makes no optimizer step (the parameters and the optimizer are
    as before the batch) and still moves the global step on by one; on any
    other batch the optimizer step is applied to the clipped task. *)
Theorem nan_guard `{!GradientsOnly C} (a : args) (st : state) (batch : Batch)
    (t : Task) (r : Output) (grad_norm : float) :
  nonzero_steps a →
  forward_backward (task st) batch = (t, r, grad_norm) →
  ∃ st', train_body a st batch = Ok st'
    ∧ pbar_n st' = pbar_n st + 1
    ∧ (PrimFloat.is_nan grad_norm = true →
         parameters (task st') = parameters (task st)
         ∧ optimizer st' = optimizer st
         ∧ ∃ more, trace st' = trace st
                     ++ Logged WARNING (GradNormNaN (pbar_n st + 1)) :: more
                 ∧ optimizer_steps more = [])
    ∧ (PrimFloat.is_nan grad_norm = false →
         parameters (task st') = parameters (optimizer_step t (optimizer st)).1
         ∧ optimizer st' = (optimizer_step t (optimizer st)).2
         ∧ ∃ more, trace st' = trace st
                     ++ OptimizerStepped (pbar_n st + 1) :: more
                 ∧ optimizer_steps more = []).
Proof.
  intros Hnz Hfb. destruct (train_body_total a st batch Hnz) as [st' Hrun].
  exists st'. split; [done|]. unfold train_body in Hrun.
  destruct (update_phase_inv st batch t r grad_norm Hfb) as (Hn & _ & Hnan & Hfin).
  apply cadences_inv in Hrun as (_ & _ & _ & Hn' & Ho & Hp & (more & Htr & Hm) & _).
  split; [congruence|].
  assert (Hmore : optimizer_steps
            (more ++ (if decide (fires a (pbar_n (update_phase st batch)))
                      then [CheckpointSaved (pbar_n (update_phase st batch))]
                      else [])) = []).
  { rewrite optimizer_steps_app, routine_optimizer_steps by done.
    by destruct (decide _). }
  split; intros Hgn.
  - destruct (Hnan Hgn) as (Ht1 & Ho1 & Htr1).
    rewrite Hp, Ht1, Ho, Ho1 by done.
    split; [by eapply forward_backward_parameters|]. split; [done|].
    eexists. split; [|exact Hmore]. rewrite Htr, Htr1. by rewrite <- app_assoc.
  - destruct (Hfin Hgn) as (Ht1 & Ho1 & Htr1).
    rewrite Hp, Ht1, Ho, Ho1 by done. split; [done|]. split; [done|].
    eexists. split; [|exact Hmore]. rewrite Htr, Htr1. by rewrite <- app_assoc.
Qed.

(** C5. The training loop is [while True] without a [break]: no run gets
    past it, so the test block after it is never executed and no run logs
    the test results, however many passes it is given. *)
Theorem test_pass_is_never_reached (a : args) (d : disk) (passes : list (list Batch)) :
  (∀ st, main a d passes ≠ Completed st)
  ∧ (∀ st, main a d passes = Interrupted st →
       pbar_n st = Z.of_nat (length (concat passes))
       ∧ Logged INFO TestHeader ∉ trace st).
Proof.
  unfold main. destruct (startup d) as [st0|e] eqn:Hstart; [|by split].
  pose proof (while_True_outcome a passes st0) as Hout.
  destruct (while _ _ passes st0) as [|st'|]; [done| |by split].
  split; [done|]. intros st [= <-].
  destruct Hout as [Hn (new & Htr & _ & Hnew) _].
  apply startup_inv in Hstart as (Hn0 & _ & _ & Htr0).
  split; [lia|]. rewrite Htr, elem_of_app. intros [Hin|Hin]; [|done].
  destruct Htr0 as [Htr0|Htr0]; rewrite Htr0 in Hin;
    apply elem_of_app in Hin as [Hin|Hin];
    solve [ by apply list_elem_of_singleton in Hin
          | unfold preparing in Hin; rewrite !elem_of_cons in Hin;
            destruct Hin as [?|[?|[?|[?|Hin]]]];
            solve [discriminate | by apply elem_of_nil in Hin] ].
Qed.

Lemma cadence_steps_100 (a : args) :
  save_step a = 100 → cadence_steps a 0 250 = [99; 199].
Proof.
  destruct a as [ts ls es ss]. simpl. intros ->. by vm_compute.
Qed.

(** C9, as the code has it.  With [save_step = 100], in a run stopped after
    250 batches the save cadence fires exactly twice, at global steps 99 and
    199; both times it writes the same two files, [task.ckpt] and
    [optimizer.ckpt], so the directory holds the files it had before, the
    two dataset checkpoints and these two files, and [task.ckpt] is the only
    task checkpoint the run leaves. *)
Theorem save_cadence_fires_at_99_and_199 (a : args) (d : disk)
    (passes : list (list Batch)) :
  save_step a = 100 → log_step a ≠ 0 → eval_step a ≠ 0 →
  is_Ok (startup d) → length (concat passes) = 250%nat →
  ∃ st, main a d passes = Interrupted st
      ∧ pbar_n st = 250
      ∧ saved_steps (trace st) = [99; 199]
      ∧ (∃ c o, files st !! "task.ckpt" = Some (TaskFile c)
              ∧ files st !! "optimizer.ckpt" = Some (OptimizerFile o))
      ∧ dom (files st) = dom d ∪ {["valid_dataset.ckpt"; "test_dataset.ckpt";
                                   "task.ckpt"; "optimizer.ckpt"]}
      ∧ ∀ name c, files st !! name = Some (TaskFile c) →
          name = "task.ckpt" ∨ d !! name = Some (TaskFile c).
Proof.
  intros Hs Hl He [st0 Hstart] Hlen. unfold main. rewrite Hstart.
  pose proof (while_True_outcome a passes st0) as Hout.
  destruct (while _ _ passes st0) as [|st|e]; [done| |].
  - exists st. split; [done|].
    pose proof Hout as Hext.
    destruct Hout as [Hn (new & Htr & Hsaved & _) _ Hsv Hfr].
    apply startup_inv in Hstart as (Hn0 & _ & Hf0 & Htr0).
    rewrite Hlen, Hn0 in *. change (Z.of_nat 250) with 250 in *.
    assert (Hsteps : cadence_steps a 0 250 ≠ []) by (by rewrite cadence_steps_100).
    rewrite cadence_steps_100 in Hsaved by done.
    destruct (Hsv Hsteps) as (c & o & Hc & Ho).
    split; [lia|]. split; [|split; [by exists c, o|split]].
    + rewrite Htr, saved_steps_app, Hsaved.
      by destruct Htr0 as [-> | ->].
    + rewrite (extends_dom _ _ _ _ Hext) by (by rewrite Hn0).
      unfold disk in *. rewrite Hf0, !dom_insert_L.
      unfold checkpoint_names.
      apply set_eq. intros x. rewrite !elem_of_union. tauto.
    + intros name c' Hname.
      destruct (decide (name = "task.ckpt")) as [->|Hnt]; [by left|]. right.
      destruct (decide (name = "optimizer.ckpt")) as [->|Hno]; [congruence|].
      unfold disk in *. rewrite Hfr, Hf0 in Hname.
      * destruct (decide (name = "test_dataset.ckpt")) as [->|Hn1].
        { by rewrite lookup_insert_eq in Hname. }
        rewrite lookup_insert_ne in Hname by done.
        destruct (decide (name = "valid_dataset.ckpt")) as [->|Hn2].
        { by rewrite lookup_insert_eq in Hname. }
        by rewrite lookup_insert_ne in Hname.
      * unfold checkpoint_names.
        rewrite elem_of_union, !elem_of_singleton. tauto.
  - exfalso. apply Hout. unfold nonzero_steps. rewrite Hs. done.
Qed.

End Controller.

End TrainSpec.

(** ** The properties on concrete inputs *)

Module Examples.
Import Sampler Train Instances SamplerSpec TrainSpec InstancesSpec.

#[global] Instance toy_gradients_only : GradientsOnly toy.
Proof. by split. Qed.

Lemma valid_seed0 (e : Z) : 0 ≤ e ≤ 100 → valid_seed (e + seed0).
Proof. unfold valid_seed, seed0. lia. Qed.

Lemma stopped_in_Interrupted (o : run_outcome (C := toy)) :
  is_interrupted o = true → o = Interrupted (stopped_in o).
Proof. by destruct o. Qed.

Lemma started_Ok (r : result (state (C := toy))) :
  is_started r = true → r = Ok (started r).
Proof. by destruct r. Qed.

(** C1, counterexample.  A run on an empty directory writes its checkpoint at
    global step 99; a start on the directory it leaves loads that task and
    has its step counter at 0, not at 99. *)
Lemma resume_counter_counterexample :
  ∃ st1 st2 : state (C := toy),
    main default_args empty_disk passes_99 = Interrupted st1
    ∧ pbar_n st1 = 99
    ∧ last (saved_steps (trace st1)) = Some 99
    ∧ files st1 !! "task.ckpt" = Some (TaskFile (save_checkpoint (task st1)))
    ∧ startup (files st1) = Ok st2
    ∧ task st2 = load_checkpoint (save_checkpoint (task st1))
    ∧ pbar_n st2 = 0
    ∧ pbar_n st2 ≠ 99.
Proof.
  exists (stopped_in (main default_args empty_disk passes_99)).
  exists (started (startup (files (stopped_in (main default_args empty_disk passes_99))))).
  split; [apply stopped_in_Interrupted; vm_compute; reflexivity|].
  do 3 (split; [vm_compute; reflexivity|]).
  split; [apply started_Ok; vm_compute; reflexivity|].
  do 2 (split; [vm_compute; reflexivity|]).
  vm_compute. discriminate.
Qed.

(** C1 on a directory that holds a task checkpoint with weight 7. *)
Lemma resume_restores_task_and_restarts_counter_witness :
  resumed_disk !! "task.ckpt" = Some (TaskFile (C := toy) 7)
  ∧ ∃ st, startup resumed_disk = Ok st
        ∧ task st = mk_toy 7 (Some 0) false
        ∧ pbar_n st = 0.
Proof.
  split; [vm_compute; reflexivity|].
  destruct (resume_restores_task_and_restarts_counter (C := toy) resumed_disk 7)
    as (st & Hst & Ht & _ & Hn & _).
  - vm_compute; reflexivity.
  - intros f Hf. vm_compute in Hf. discriminate.
  - exists st. split; [exact Hst|]. split; [exact Ht | exact Hn].
Defined.

(** C2 on a batch without value: the gradient norm is not a number. *)
Lemma nan_guard_witness :
  nonzero_steps default_args
  ∧ ∃ st', train_body default_args fresh_state None = Ok st'
         ∧ pbar_n st' = 1
         ∧ parameters (task st') = 5
         ∧ optimizer st' = 0
         ∧ ∃ more, trace st' = Logged WARNING (GradNormNaN 1) :: more
                 ∧ optimizer_steps more = [].
Proof.
  assert (Hnz : nonzero_steps default_args) by (by vm_compute).
  split; [done|].
  destruct (nan_guard (C := toy) default_args fresh_state None
              (mk_toy 5 None true) None PrimFloat.nan Hnz eq_refl)
    as (st' & Hrun & Hn & Hnan & _).
  destruct (Hnan eq_refl) as (Hp & Ho & more & Htr & Hmore).
  exists st'. repeat (split; [done|]). by exists more.
Defined.

(** C3, counterexample.  With a dataset of one item, batch size 2 and
    duplication 2, both draws are index 0 and the one batch is [[0; 0]]. *)
Lemma batch_repeats_index_counterexample :
  (s ← __init__ label single_dataset 2 None 2 seed0; __iter__ weighted_sampler s)
    = Ok [[0; 0]]%nat
  ∧ ¬ Forall NoDup [[0; 0]]%nat.
Proof.
  split; [by vm_compute|].
  intros Hall. apply Forall_cons in Hall as [Hnd _].
  apply NoDup_cons in Hnd as [Hin _]. apply Hin. by left.
Qed.

(** The same batch comes out of every sampler that meets the contract. *)
Lemma single_item_batch_repeats (draw : list Q → Z → bool → Z → result (list nat)) :
  draw_contract draw →
  (s ← __init__ label single_dataset 2 None 2 seed0; __iter__ draw s) = Ok [[0; 0]]%nat.
Proof.
  intros Hdraw.
  destruct (__init__ label single_dataset 2 None 2 seed0) as [s|] eqn:Hinit;
    [|by vm_compute in Hinit].
  destruct (iter_shape label draw Hdraw single_dataset 2 2 seed0 0 s Hinit)
    as (l & _ & _ & Hlen & Hrange & Hiter & _);
    [done | lia | by apply valid_seed0 |].
  assert (Hs : set_epoch s 0 = s).
  { vm_compute in Hinit. by injection Hinit as <-. }
  rewrite Hs in Hiter. simpl. rewrite Hiter. f_equal.
  destruct l as [|i [|j [|]]]; simpl in Hlen; try lia.
  apply Forall_cons in Hrange as [Hi Hrange].
  apply Forall_cons in Hrange as [Hj _]. simpl in Hi, Hj.
  by replace i with 0%nat by lia; replace j with 0%nat by lia.
Qed.

(** C3 on the skewed dataset: the second batch is draws 3 to 5. *)
Lemma batches_are_runs_of_draws_witness :
  ∃ s batches indices,
    __init__ label skewed_dataset 3 None 2 seed0 = Ok s
    ∧ __iter__ weighted_sampler (set_epoch s 1) = Ok batches
    ∧ draw_indices weighted_sampler (set_epoch s 1) = Ok indices
    ∧ batches !! 1%nat = Some (take 3 (drop 3 indices)).
Proof.
  destruct (__init__ label skewed_dataset 3 None 2 seed0) as [s|] eqn:Hinit;
    [|by vm_compute in Hinit].
  destruct (__iter__ weighted_sampler (set_epoch s 1)) as [batches|] eqn:Hiter;
    [|by (vm_compute in Hinit; injection Hinit as <-; vm_compute in Hiter)].
  destruct (batches_are_runs_of_draws label weighted_sampler weighted_sampler_contract
              skewed_dataset 3 2 seed0 1 s batches Hinit)
    as (indices & Hdraw & _ & Hruns); [done | lia | by apply valid_seed0 | done |].
  exists s, batches, indices. repeat (split; [done|]).
  destruct (batches !! 1%nat) as [batch|] eqn:Hb.
  - by destruct (Hruns 1%nat batch Hb) as [-> _].
  - vm_compute in Hinit. injection Hinit as <-.
    vm_compute in Hiter. injection Hiter as <-. by vm_compute in Hb.
Defined.

(** C4, counterexample.  Construction succeeds with batch size 0 and with the
    empty dataset. *)
Lemma init_unchecked_counterexample :
  __init__ label skewed_dataset 0 None 1 seed0
    = Ok {| epoch := 0; seed := seed0; batch_size := 0; duplicate := 1;
            weights := [4 # 3; 4 # 3; 4 # 1; 4 # 3]%Q |}
  ∧ __init__ label [] 8 None 1 seed0
    = Ok {| epoch := 0; seed := seed0; batch_size := 8; duplicate := 1;
            weights := [] |}.
Proof. by vm_compute. Qed.

(** C4 on the skewed dataset with batch size -3. *)
Lemma init_checks_nothing_witness :
  ∃ s, __init__ label skewed_dataset (-3) None 1 seed0 = Ok s ∧ batch_size s = -3.
Proof.
  destruct (init_checks_nothing label skewed_dataset (-3) 1 seed0)
    as [(s & Hs & _ & _ & Hb & _) _].
  by exists s.
Defined.

(** C5 on a run of three batches with [total_steps = 2]: the run is still
    in the loop and has logged no test header. *)
Lemma test_pass_is_never_reached_witness :
  ∃ st : state (C := toy),
    main short_args empty_disk passes_3 = Interrupted st
    ∧ pbar_n st = 3
    ∧ Logged INFO TestHeader ∉ trace st.
Proof.
  exists (stopped_in (main short_args empty_disk passes_3)).
  assert (Hrun : main short_args empty_disk passes_3
                 = Interrupted (stopped_in (main short_args empty_disk passes_3))).
  { apply stopped_in_Interrupted. vm_compute. reflexivity. }
  split; [exact Hrun|].
  destruct (test_pass_is_never_reached (C := toy) short_args empty_disk passes_3)
    as [_ Hnever].
  exact (Hnever _ Hrun).
Defined.

(** C6 on the skewed dataset at epoch 3, iterated in two worlds and twice in
    a row. *)
Lemma iter_has_no_hidden_input_witness :
  ∃ s, __init__ label skewed_dataset 2 None 1 seed0 = Ok s
     ∧ (iter_in_world (T := lcg_random) 1 (set_epoch s 3)).1
       = (iter_in_world (T := lcg_random) 99 (set_epoch s 3)).1
     ∧ (iter_in_world (T := lcg_random)
          (iter_in_world (T := lcg_random) 1 (set_epoch s 3)).2 (set_epoch s 3)).1
       = (iter_in_world (T := lcg_random) 1 (set_epoch s 3)).1.
Proof.
  destruct (__init__ label skewed_dataset 2 None 1 seed0) as [s|] eqn:Hinit;
    [|by vm_compute in Hinit].
  exists s. split; [done|].
  destruct (iter_has_no_hidden_input (T := lcg_random) lcg_random_seeding 1 99
              (set_epoch s 3) (set_epoch s 3) eq_refl eq_refl eq_refl eq_refl)
    as (Hworlds & Htwice & _).
  split; [exact Hworlds | exact Htwice].
Defined.

(** C7 on the skewed dataset: the one item of class [B] among four has
    weight 4. *)
Lemma get_weights_inverse_class_frequency_witness :
  skewed_dataset !! 2%nat = Some (mk_utterance 2 B)
  ∧ ∃ w, get_weights label skewed_dataset = Ok w
       ∧ length w = 4%nat
       ∧ w !! 2%nat = Some (4 # 1)%Q.
Proof.
  split; [done|].
  destruct (get_weights_inverse_class_frequency label skewed_dataset)
    as (w & Hw & Hlen & Hat).
  destruct (Hat 2%nat (mk_utterance 2 B) eq_refl) as (_ & _ & Hw2 & _).
  by exists w.
Defined.

(** C8, counterexample.  Construction accepts the empty dataset and a
    duplication factor of 0; the number of samples asked of
    [WeightedRandomSampler] is then 0, which it refuses with a [ValueError],
    so iteration and [len] raise instead of drawing. *)
Lemma degenerate_draw_counterexample :
  __init__ label [] 2 None 1 seed0
    = Ok {| epoch := 0; seed := seed0; batch_size := 2; duplicate := 1; weights := [] |}
  ∧ (s ← __init__ label [] 2 None 1 seed0; __iter__ weighted_sampler s)
    = Raise ValueError
  ∧ (s ← __init__ label [] 2 None 1 seed0; __len__ weighted_sampler s)
    = Raise ValueError
  ∧ (s ← __init__ label skewed_dataset 2 None 0 seed0; __iter__ weighted_sampler s)
    = Raise ValueError
  ∧ (s ← __init__ label skewed_dataset 2 None 0 seed0; __len__ weighted_sampler s)
    = Raise ValueError.
Proof. repeat split; vm_compute; reflexivity. Qed.

(** C8 on the skewed dataset with duplication 2: eight draws. *)
Lemma iter_draws_len_times_duplicate_witness :
  ∃ s indices,
    __init__ label skewed_dataset 3 None 2 seed0 = Ok s
    ∧ draw_indices weighted_sampler (set_epoch s 1) = Ok indices
    ∧ Z.of_nat (length indices) = 4 * 2
    ∧ __len__ weighted_sampler (set_epoch s 1) = Ok (length (batch_loop 3 indices [])).
Proof.
  destruct (__init__ label skewed_dataset 3 None 2 seed0) as [s|] eqn:Hinit;
    [|by vm_compute in Hinit].
  destruct (iter_draws_len_times_duplicate label weighted_sampler
              weighted_sampler_contract skewed_dataset 3 2 seed0 1 s Hinit)
    as (indices & _ & Hdraw & Hcount & _ & _ & Hlen & _);
    [done | lia | by apply valid_seed0 |].
  by exists s, indices.
Defined.

(** C10 on the skewed dataset: eight draws at batch size 3 give two batches
    of three. *)
Lemma iter_emits_full_batches_only_witness :
  ∃ s batches,
    __init__ label skewed_dataset 3 None 2 seed0 = Ok s
    ∧ __iter__ weighted_sampler (set_epoch s 1) = Ok batches
    ∧ Forall (λ batch, Z.of_nat (length batch) = 3) batches
    ∧ Z.of_nat (length batches) = (4 * 2) `div` 3.
Proof.
  destruct (__init__ label skewed_dataset 3 None 2 seed0) as [s|] eqn:Hinit;
    [|by vm_compute in Hinit].
  destruct (iter_emits_full_batches_only label weighted_sampler
              weighted_sampler_contract skewed_dataset 3 2 seed0 1 s Hinit)
    as (indices & batches & _ & Hiter & Hfull & Hcount & _);
    [done | lia | lia | by apply valid_seed0 |].
  by exists s, batches.
Defined.

(** C9, counterexample.  A run of 250 batches with [save_step = 100] on an
    empty directory saves at global steps 99 and 199, not 100 and 200, and
    leaves one file with a task checkpoint, not two. *)
Lemma save_cadence_counterexample :
  ∃ st : state (C := toy),
    main default_args empty_disk passes_250 = Interrupted st
    ∧ pbar_n st = 250
    ∧ saved_steps (trace st) = [99; 199]
    ∧ saved_steps (trace st) ≠ [100; 200]
    ∧ task_checkpoint_files (files st) = ["task.ckpt"]
    ∧ length (task_checkpoint_files (files st)) ≠ 2%nat.
Proof.
  exists (stopped_in (main default_args empty_disk passes_250)).
  split; [apply stopped_in_Interrupted; vm_compute; reflexivity|].
  do 2 (split; [vm_compute; reflexivity|]).
  split; [vm_compute; discriminate|].
  split; [vm_compute; reflexivity|].
  vm_compute. discriminate.
Qed.

(** C9 on a run of 250 batches of the toy task. *)
Lemma save_cadence_fires_at_99_and_199_witness :
  save_step default_args = 100
  ∧ length (concat passes_250) = 250%nat
  ∧ ∃ st : state (C := toy),
      main default_args empty_disk passes_250 = Interrupted st
      ∧ saved_steps (trace st) = [99; 199].
Proof.
  split; [reflexivity|]. split; [vm_compute; reflexivity|].
  destruct (save_cadence_fires_at_99_and_199 (C := toy) default_args empty_disk passes_250)
    as (st & Hrun & _ & Hsaved & _).
  - reflexivity.
  - discriminate.
  - discriminate.
  - exists (started (startup empty_disk)). apply started_Ok. vm_compute. reflexivity.
  - vm_compute. reflexivity.
  - exists st. split; [exact Hrun | exact Hsaved].
Defined.

End Examples.

(** * Further properties *)

(** ** The sampler *)

Module SamplerMore.
Import Sampler SamplerSpec.

Section Weights.
Context {Item Label : Type} `{Countable Label}.
Variable label : Item → Label.

Lemma foldl_Counter_update_lookup (dataset : list Item) (c : gmap Label nat) (l : Label) :
  foldl (λ c item, Counter_update c (label item)) c dataset !! l =
  if decide (label_count label dataset l = 0%nat) then c !! l
  else Some (Counter_get c l + label_count label dataset l)%nat.
Proof.
  revert c. induction dataset as [|item rest IH]; intros c; simpl.
  - done.
  - rewrite IH. unfold label_count. rewrite filter_cons.
    unfold Counter_get, Counter_update.
    destruct (decide (label item = l)) as [->|Hne]; simpl.
    + rewrite lookup_insert_eq. simpl.
      destruct (decide (length _ = 0%nat)) as [->|_]; [f_equal; lia|].
      f_equal. lia.
    + by rewrite lookup_insert_ne.
Qed.

(** X1. The counter that the first pass of [get_weights] builds has an
    entry for a label exactly when some item carries the label, and the
    entry is the number of items that carry it. *)
Theorem count_labels_entries (dataset : list Item) (l : Label) (c : nat) :
  count_labels label dataset !! l = Some c ↔
  c = label_count label dataset l ∧ ∃ item, item ∈ dataset ∧ label item = l.
Proof.
  unfold count_labels. rewrite foldl_Counter_update_lookup.
  unfold Counter_get. rewrite lookup_empty. simpl.
  assert (Hex : label_count label dataset l ≠ 0%nat ↔
                ∃ item, item ∈ dataset ∧ label item = l).
  { unfold label_count. split.
    - intros Hne. destruct (filter _ dataset) as [|item rest] eqn:Hf; [done|].
      exists item.
      assert (Hin : item ∈ filter (λ x, label x = l) dataset) by (rewrite Hf; by left).
      apply list_elem_of_filter in Hin. tauto.
    - intros (item & Hin & Hl) Hz.
      assert (Hf : item ∈ filter (λ x, label x = l) dataset)
        by (by apply list_elem_of_filter).
      destruct (filter _ dataset); [by apply elem_of_nil in Hf | done]. }
  destruct (decide _) as [Hz|Hnz].
  - split; [done|]. intros [_ Hitem]. by apply Hex in Hitem.
  - split.
    + intros [= <-]. split; [done | by apply Hex].
    + by intros [-> _].
Qed.

Lemma label_count_le (dataset : list Item) (l : Label) :
  (label_count label dataset l ≤ length dataset)%nat.
Proof. unfold label_count. apply length_filter. Qed.

(** X2. Every weight of the default weight function lies between 1 and the
    size of the dataset, and two items of the same label get the same
    weight. *)
Theorem default_weights_bounds (dataset : list Item) (w : list Q)
    (i : nat) (item : Item) :
  get_weights label dataset = Ok w → dataset !! i = Some item →
  ∃ x, w !! i = Some x
     ∧ (1 <= x)%Q ∧ (x <= inject_Z (Z.of_nat (length dataset)))%Q
     ∧ ∀ j item', dataset !! j = Some item' → label item' = label item →
         w !! j = Some x.
Proof.
  rewrite get_weights_Ok. intros [= <-] Hi.
  exists (inverse_frequency label dataset item).
  rewrite list_lookup_fmap, Hi. split; [done|].
  pose proof (label_count_pos label dataset item) as Hpos.
  pose proof (label_count_le dataset (label item)) as Hle.
  assert (Hin : item ∈ dataset) by (by eapply list_elem_of_lookup_2).
  specialize (Hpos Hin).
  unfold inverse_frequency, Qle. simpl.
  repeat split.
  - rewrite Z.mul_1_r, Z.mul_1_l.
    destruct (label_count label dataset (label item)) as [|c]; [lia|].
    rewrite <- Pos.of_nat_succ. lia.
  - rewrite Z.mul_1_r.
    destruct (label_count label dataset (label item)) as [|c]; [lia|].
    rewrite <- Pos.of_nat_succ. nia.
  - intros j item' Hj Hl. rewrite list_lookup_fmap, Hj. simpl.
    unfold inverse_frequency. by rewrite Hl.
Qed.

End Weights.

Section Iteration.
Context {Item Label : Type} `{Countable Label}.
Variable label : Item → Label.
Variable WeightedRandomSampler : list Q → Z → bool → Z → result (list nat).

(** X4. The epoch enters iteration only as a shift of the seed: a sampler
    built with seed [sd] and set to epoch [e] yields the batches of a
    sampler built with seed [sd + e] and left at its initial epoch. *)
Theorem epoch_shifts_seed (dataset : list Item) (bs dup sd e : Z) (s s' : sampler) :
  __init__ label dataset bs None dup sd = Ok s →
  __init__ label dataset bs None dup (sd + e) = Ok s' →
  __iter__ WeightedRandomSampler (set_epoch s e) = __iter__ WeightedRandomSampler s'
  ∧ __len__ WeightedRandomSampler (set_epoch s e) = __len__ WeightedRandomSampler s'.
Proof.
  rewrite !init_default. intros [= <-] [= <-].
  assert (Hiter : __iter__ WeightedRandomSampler
                    (set_epoch {| epoch := 0; seed := sd; batch_size := bs;
                                  duplicate := dup;
                                  weights := inverse_frequency label dataset <$> dataset |} e)
                  = __iter__ WeightedRandomSampler
                      {| epoch := 0; seed := sd + e; batch_size := bs;
                         duplicate := dup;
                         weights := inverse_frequency label dataset <$> dataset |}).
  { unfold __iter__, draw_indices. simpl. by rewrite Z.add_comm. }
  split; [done|]. unfold __len__. by rewrite Hiter.
Qed.

Hypothesis draw_ok : draw_contract WeightedRandomSampler.

(** X5. A batch size of zero or less, which construction accepts, makes
    iteration draw its indices and emit no batch at all; [len] is 0. *)
Theorem nonpositive_batch_size_emits_nothing (dataset : list Item)
    (bs dup sd e : Z) (s : sampler) :
  __init__ label dataset bs None dup sd = Ok s →
  dataset ≠ [] → 0 < dup → valid_seed (e + sd) → bs ≤ 0 →
  (∃ indices, draw_indices WeightedRandomSampler (set_epoch s e) = Ok indices
            ∧ Z.of_nat (length indices) = Z.of_nat (length dataset) * dup)
  ∧ __iter__ WeightedRandomSampler (set_epoch s e) = Ok []
  ∧ __len__ WeightedRandomSampler (set_epoch s e) = Ok 0%nat.
Proof.
  intros Hinit Hne Hdup Hseed Hbs.
  destruct (iter_shape label WeightedRandomSampler draw_ok _ _ _ _ _ _
              Hinit Hne Hdup Hseed)
    as (indices & _ & Hdraw & Hcount & _ & Hiter & Hlen).
  rewrite batch_loop_nonpos in Hiter, Hlen by done.
  split; [by exists indices | by split].
Qed.

(** X6. With a weight function of the caller, the draws follow the weight
    vector it returns, not the dataset: iteration draws
    [len(weights) * duplicate] positions of the weight vector. *)
Theorem custom_weights_govern_draws (f : list Item → result (list Q))
    (dataset : list Item) (w : list Q) (bs dup sd e : Z) (s : sampler) :
  f dataset = Ok w →
  __init__ label dataset bs (Some f) dup sd = Ok s →
  valid_weights w → 0 < dup → valid_seed (e + sd) →
  weights s = w
  ∧ ∃ indices,
      draw_indices WeightedRandomSampler (set_epoch s e) = Ok indices
      ∧ Z.of_nat (length indices) = Z.of_nat (length w) * dup
      ∧ Forall (λ i, (i < length w)%nat) indices
      ∧ __iter__ WeightedRandomSampler (set_epoch s e)
          = Ok (batch_loop bs indices []).
Proof.
  intros Hf. unfold __init__. simpl. rewrite Hf. simpl.
  intros [= <-] Hw Hdup Hseed. simpl. split; [done|].
  assert (Hn : 0 < Z.of_nat (length w) * dup).
  { destruct Hw as [Hne _]. destruct w; [done | simpl length; lia]. }
  destruct (draw_ok _ _ _ Hw Hn Hseed) as (indices & Hdraw & Hcount & Hrange).
  exists indices. unfold __iter__, draw_indices. simpl. rewrite Hdraw. simpl.
  repeat split; try done. lia.
Qed.

End Iteration.

End SamplerMore.

(** ** The training script *)

Module TrainMore.
Import Train TrainSpec.

Lemma mod_succ (g L : Z) :
  0 < L → (g + 1) mod L ≠ 0 → (g + 1) mod L = g mod L + 1.
Proof.
  intros HL Hnz.
  pose proof (Z.mod_pos_bound g L HL) as Hr.
  pose proof (Z.div_mod g L ltac:(lia)) as Hg.
  destruct (decide (g mod L + 1 = L)) as [Heq|Hne].
  - exfalso. apply Hnz. symmetry. apply (Z.mod_unique _ _ (g `div` L + 1)); lia.
  - symmetry. apply (Z.mod_unique _ _ (g `div` L)); lia.
Qed.

Lemma div_succ (x L : Z) :
  0 < L → (x + 1) `div` L = x `div` L + (if decide ((x + 1) mod L = 0) then 1 else 0).
Proof.
  intros HL.
  pose proof (Z.mod_pos_bound x L HL) as Hr.
  pose proof (Z.div_mod x L ltac:(lia)) as Hx.
  destruct (decide ((x + 1) mod L = 0)) as [Hz|Hnz].
  - destruct (decide (x mod L + 1 = L)) as [Heq|Hne].
    + symmetry. apply (Z.div_unique _ _ _ 0); lia.
    + exfalso.
      assert (x mod L + 1 = (x + 1) mod L)
        by (apply (Z.mod_unique _ _ (x `div` L)); lia).
      lia.
  - rewrite Z.add_0_r. symmetry.
    pose proof (mod_succ x L HL Hnz) as Hs.
    pose proof (Z.mod_pos_bound (x + 1) L HL) as Hr'.
    apply (Z.div_unique _ _ _ (x mod L + 1)); lia.
Qed.

(** How many of the global steps [1, ..., k] have [g + 1] divisible by [L]. *)
Lemma cadence_count (L : Z) (k : nat) :
  0 < L →
  Z.of_nat (length (filter (λ g, (g + 1) mod L = 0) (seqZ 1 (Z.of_nat k))))
  = (Z.of_nat k + 1) `div` L - 1 `div` L.
Proof.
  intros HL. induction k as [|k IH].
  - rewrite seqZ_nil by done. rewrite filter_nil.
    change (Z.of_nat 0 + 1) with 1. cbn [length]. lia.
  - rewrite seqZ_S, filter_app, length_app, Nat2Z.inj_add, IH.
    rewrite filter_cons, filter_nil.
    replace (Z.of_nat (S k) + 1) with ((Z.of_nat k + 1) + 1) by lia.
    rewrite (div_succ (Z.of_nat k + 1) L) by done.
    replace (1 + Z.of_nat k + 1) with (Z.of_nat k + 1 + 1) by lia.
    destruct (decide _); simpl; lia.
Qed.

Lemma filter_all {A} (l : list A) : filter (λ _, True) l = l.
Proof.
  induction l as [|x l IH]; [done|]. rewrite filter_cons. simpl. by rewrite IH.
Qed.

Section Controller.
Context {C : Collaborators}.

Lemma log_cadence_exact (a : args) (st st' : state) :
  log_cadence a st = Ok st' →
  batch_results st' = (if decide (log_fires a (pbar_n st)) then [] else batch_results st)
  ∧ trace st' = trace st
      ++ (if decide (log_fires a (pbar_n st))
          then Logged INFO (TrainStepHeader (pbar_n st))
               :: log_all INFO (train_reduction (task st) (batch_results st))
          else []).
Proof.
  unfold log_cadence, log_fires. intros Hrun.
  apply SamplerSpec.bind_Ok in Hrun as (r & Hr & Hrun).
  apply py_mod_Ok in Hr as [_ ->].
  destruct (decide (_ = 0)); injection Hrun as <-; simpl; [done|].
  by rewrite app_nil_r.
Qed.

Lemma eval_cadence_exact (a : args) (st st' : state) :
  eval_cadence a st = Ok st' →
  batch_results st' = batch_results st
  ∧ ∃ logs, trace st' = trace st
      ++ (if decide (eval_fires a (pbar_n st))
          then Logged INFO (ValidStepHeader (pbar_n st)) :: log_all INFO logs
          else []).
Proof.
  unfold eval_cadence, eval_fires. intros Hrun.
  apply SamplerSpec.bind_Ok in Hrun as (r & Hr & Hrun).
  apply py_mod_Ok in Hr as [_ ->].
  destruct (decide (_ = 0)).
  - destruct (valid_loop _ _ _) as [t rs]. injection Hrun as <-. simpl.
    split; [done|]. by eexists.
  - injection Hrun as <-. split; [done|]. exists []. by rewrite app_nil_r.
Qed.

Lemma save_cadence_results (a : args) (st st' : state) :
  save_cadence a st = Ok st' → batch_results st' = batch_results st.
Proof.
  unfold save_cadence. intros Hrun.
  apply SamplerSpec.bind_Ok in Hrun as (r & _ & Hrun).
  by destruct (decide (r = 0)); injection Hrun as <-.
Qed.

(** Everything one batch appends to the trace and does to the buffer. *)
Lemma train_body_trace (a : args) (st st' : state) (batch : Batch)
    (t : Task) (r : Output) (gn : float) :
  forward_backward (task st) batch = (t, r, gn) →
  train_body a st batch = Ok st' →
  pbar_n st' = pbar_n st + 1
  ∧ batch_results st' =
      (if decide (log_fires a (pbar_n st + 1)) then []
       else batch_results st ++ [cacheable r])
  ∧ ∃ logs vlogs,
      trace st' = trace st
        ++ [if PrimFloat.is_nan gn
            then Logged WARNING (GradNormNaN (pbar_n st + 1))
            else OptimizerStepped (pbar_n st + 1)]
        ++ (if decide (log_fires a (pbar_n st + 1))
            then Logged INFO (TrainStepHeader (pbar_n st + 1)) :: log_all INFO logs
            else [])
        ++ (if decide (eval_fires a (pbar_n st + 1))
            then Logged INFO (ValidStepHeader (pbar_n st + 1)) :: log_all INFO vlogs
            else [])
        ++ (if decide (fires a (pbar_n st + 1))
            then [CheckpointSaved (pbar_n st + 1)] else []).
Proof.
  intros Hfb Hrun. unfold train_body in Hrun.
  apply SamplerSpec.bind_Ok in Hrun as (st1 & H1 & Hrun).
  apply SamplerSpec.bind_Ok in Hrun as (st2 & H2 & H3).
  pose proof (log_cadence_inv _ _ _ H1) as (_ & Hn1 & _).
  pose proof (eval_cadence_inv _ _ _ H2) as (_ & Hn2 & _).
  pose proof (save_cadence_inv _ _ _ H3) as (_ & Hn3 & _ & _ & Htr3 & _).
  apply log_cadence_exact in H1 as [Hb1 Htr1].
  apply eval_cadence_exact in H2 as [Hb2 (vlogs & Htr2)].
  apply save_cadence_results in H3 as Hb3.
  assert (Hup : pbar_n (update_phase st batch) = pbar_n st + 1
                ∧ batch_results (update_phase st batch) = batch_results st ++ [cacheable r]
                ∧ trace (update_phase st batch) = trace st
                    ++ [if PrimFloat.is_nan gn
                        then Logged WARNING (GradNormNaN (pbar_n st + 1))
                        else OptimizerStepped (pbar_n st + 1)]).
  { unfold update_phase. rewrite Hfb. destruct (PrimFloat.is_nan gn); [done|].
    by destruct (optimizer_step t (optimizer st)). }
  destruct Hup as (Hn0 & Hb0 & Htr0).
  rewrite Hn2, Hn1, Hn0 in Htr3. rewrite Hn1, Hn0 in Htr2. rewrite Hn0 in Htr1, Hb1.
  split; [congruence|]. split.
  - rewrite Hb3, Hb2, Hb1, Hb0. done.
  - eexists _, vlogs. rewrite Htr3, Htr2, Htr1, Htr0.
    by rewrite <- !app_assoc.
Qed.

(** *** What a run shows of a kind of event

    [φ] picks a kind of event and [P] says at which global steps one batch
    logs it; a run then shows it at the steps among [n + 1, ..., n + k]
    that satisfy [P]. *)
Section Observation.
Variable a : args.
Variable φ : event → option Z.
Variable P : Z → Prop.
Context `{∀ g, Decision (P g)}.
Hypothesis body_shows : ∀ st batch st',
  train_body a st batch = Ok st' →
  ∃ new, trace st' = trace st ++ new
       ∧ omap φ new = if decide (P (pbar_n st + 1)) then [pbar_n st + 1] else [].

Lemma train_for_shows (batches : list Batch) (st st' : state) :
  train_for a batches st = Ok st' →
  ∃ new, trace st' = trace st ++ new
       ∧ omap φ new = filter P (seqZ (pbar_n st + 1) (Z.of_nat (length batches))).
Proof.
  revert st. induction batches as [|batch rest IH]; intros st; simpl.
  - intros [= <-]. exists []. by rewrite app_nil_r, seqZ_nil.
  - intros Hrun. apply SamplerSpec.bind_Ok in Hrun as (st1 & H1 & Hrest).
    pose proof (train_body_extends _ _ _ _ H1) as [_ [Hn _ _ _ _]].
    apply body_shows in H1 as (new1 & Htr1 & Hobs1).
    apply IH in Hrest as (new2 & Htr2 & Hobs2).
    exists (new1 ++ new2). rewrite Htr2, Htr1, <- app_assoc. split; [done|].
    rewrite omap_app, Hobs1, Hobs2, Hn.
    rewrite (seqZ_cons (pbar_n st + 1)) by lia. rewrite filter_cons.
    replace (Z.succ (pbar_n st + 1)) with (pbar_n st + 1 + 1) by lia.
    replace (Z.pred (Z.of_nat (S (length rest)))) with (Z.of_nat (length rest)) by lia.
    by destruct (decide _).
Qed.

Lemma while_True_shows (passes : list (list Batch)) (st st' : state) :
  while (λ _, true) (train_pass a) passes st = Running st' →
  ∃ new, trace st' = trace st ++ new
       ∧ omap φ new
         = filter P (seqZ (pbar_n st + 1) (Z.of_nat (length (concat passes)))).
Proof.
  revert st. induction passes as [|batches rest IH]; intros st; simpl.
  - intros [= <-]. exists []. by rewrite app_nil_r, seqZ_nil.
  - destruct (train_pass a batches st) as [st1|e] eqn:Hpass; [|done].
    intros Hrest.
    pose proof (train_pass_extends _ _ _ _ Hpass) as [Hn _ _ _ _].
    unfold train_pass in Hpass.
    apply train_for_shows in Hpass as (new1 & Htr1 & Hobs1). simpl in Htr1, Hobs1.
    apply IH in Hrest as (new2 & Htr2 & Hobs2).
    exists (new1 ++ new2). rewrite Htr2, Htr1, <- app_assoc. split; [done|].
    rewrite omap_app, Hobs1, Hobs2, Hn.
    rewrite length_app, Nat2Z.inj_add, seqZ_app, filter_app by lia.
    do 3 f_equal. lia.
Qed.

Lemma main_shows (d : disk) (passes : list (list Batch)) (st : state) :
  φ (Logged INFO PreparingPreprocessor) = None →
  φ (Logged INFO PreparingTrainDataloader) = None →
  φ (Logged INFO PreparingValidDataloader) = None →
  φ (Logged INFO PreparingTestDataloader) = None →
  φ (Logged INFO LastCheckpointFound) = None →
  φ (Logged INFO NoLastCheckpointFound) = None →
  main a d passes = Interrupted st →
  omap φ (trace st) = filter P (seqZ 1 (Z.of_nat (length (concat passes)))).
Proof.
  intros H1 H2 H3 H4 H5 H6. unfold main.
  destruct (startup d) as [st0|e] eqn:Hstart; [|done].
  destruct (while _ _ passes st0) as [|st'|] eqn:Hrun; try done.
  intros [= <-]. apply while_True_shows in Hrun as (new & Htr & Hobs).
  apply startup_inv in Hstart as (Hn0 & _ & _ & Htr0).
  rewrite Hn0 in Hobs. rewrite Htr, omap_app, Hobs.
  destruct Htr0 as [-> | ->]; simpl; by rewrite H1, H2, H3, H4, ?H5, ?H6.
Qed.

End Observation.

Lemma body_shows_train_log (a : args) (st : state) (batch : Batch) (st' : state) :
  train_body a st batch = Ok st' →
  ∃ new, trace st' = trace st ++ new
       ∧ train_log_steps new
         = if decide (log_fires a (pbar_n st + 1)) then [pbar_n st + 1] else [].
Proof.
  intros Hrun. destruct (forward_backward (task st) batch) as [[t r] gn] eqn:Hfb.
  destruct (train_body_trace a st st' batch t r gn Hfb Hrun)
    as (_ & _ & logs & vlogs & ->).
  eexists. split; [done|]. unfold train_log_steps. rewrite !omap_app.
  assert (Hl : ∀ lv ls, omap (λ e, match e with
                              | Logged INFO (TrainStepHeader g) => Some g
                              | _ => None end) (log_all lv ls) = []).
  { intros lv ls. induction ls as [|x ls IH]; [done|]. by destruct lv. }
  destruct (PrimFloat.is_nan gn), (decide (log_fires _ _)),
    (decide (eval_fires _ _)), (decide (fires _ _)); simpl; by rewrite ?Hl.
Qed.

Lemma body_shows_valid_log (a : args) (st : state) (batch : Batch) (st' : state) :
  train_body a st batch = Ok st' →
  ∃ new, trace st' = trace st ++ new
       ∧ valid_log_steps new
         = if decide (eval_fires a (pbar_n st + 1)) then [pbar_n st + 1] else [].
Proof.
  intros Hrun. destruct (forward_backward (task st) batch) as [[t r] gn] eqn:Hfb.
  destruct (train_body_trace a st st' batch t r gn Hfb Hrun)
    as (_ & _ & logs & vlogs & ->).
  eexists. split; [done|]. unfold valid_log_steps. rewrite !omap_app.
  assert (Hl : ∀ lv ls, omap (λ e, match e with
                              | Logged INFO (ValidStepHeader g) => Some g
                              | _ => None end) (log_all lv ls) = []).
  { intros lv ls. induction ls as [|x ls IH]; [done|]. by destruct lv. }
  destruct (PrimFloat.is_nan gn), (decide (log_fires _ _)),
    (decide (eval_fires _ _)), (decide (fires _ _)); simpl; by rewrite ?Hl, ?app_nil_r.
Qed.

Lemma body_shows_saved (a : args) (st : state) (batch : Batch) (st' : state) :
  train_body a st batch = Ok st' →
  ∃ new, trace st' = trace st ++ new
       ∧ saved_steps new
         = if decide (fires a (pbar_n st + 1)) then [pbar_n st + 1] else [].
Proof.
  intros Hrun. destruct (forward_backward (task st) batch) as [[t r] gn] eqn:Hfb.
  destruct (train_body_trace a st st' batch t r gn Hfb Hrun)
    as (_ & _ & logs & vlogs & ->).
  eexists. split; [done|]. unfold saved_steps. rewrite !omap_app.
  assert (Hl : ∀ lv ls, omap (λ e, match e with
                              | CheckpointSaved g => Some g
                              | _ => None end) (log_all lv ls) = []).
  { intros lv ls. induction ls as [|x ls IH]; [done|]. by destruct lv. }
  destruct (PrimFloat.is_nan gn), (decide (log_fires _ _)),
    (decide (eval_fires _ _)), (decide (fires _ _)); simpl; by rewrite ?Hl, ?app_nil_r.
Qed.

Lemma body_shows_guard (a : args) (st : state) (batch : Batch) (st' : state) :
  train_body a st batch = Ok st' →
  ∃ new, trace st' = trace st ++ new
       ∧ guarded_steps new
         = if decide ((λ _ : Z, True) (pbar_n st + 1)) then [pbar_n st + 1] else [].
Proof.
  intros Hrun. destruct (forward_backward (task st) batch) as [[t r] gn] eqn:Hfb.
  destruct (train_body_trace a st st' batch t r gn Hfb Hrun)
    as (_ & _ & logs & vlogs & ->).
  eexists. split; [done|]. unfold guarded_steps. rewrite !omap_app.
  assert (Hl : ∀ lv ls, omap (λ e, match e with
                              | OptimizerStepped g | Logged WARNING (GradNormNaN g) => Some g
                              | _ => None end) (log_all lv ls) = []).
  { intros lv ls. induction ls as [|x ls IH]; [done|]. by destruct lv. }
  destruct (PrimFloat.is_nan gn), (decide (log_fires _ _)),
    (decide (eval_fires _ _)), (decide (fires _ _)); simpl; by rewrite ?Hl, ?app_nil_r.
Qed.

(** X7. The [[Train] step] header is logged at exactly the global steps [g]
    of the run with [(g + 1) % log_step == 0], once each and in order; with
    a positive [log_step] a run of [k] batches logs it
    [(k + 1) // log_step - 1 // log_step] times. *)
Theorem train_log_cadence (a : args) (d : disk) (passes : list (list Batch))
    (st : state) :
  main a d passes = Interrupted st →
  train_log_steps (trace st)
    = filter (log_fires a) (seqZ 1 (Z.of_nat (length (concat passes))))
  ∧ (0 < log_step a →
     Z.of_nat (length (train_log_steps (trace st)))
     = (Z.of_nat (length (concat passes)) + 1) `div` log_step a - 1 `div` log_step a).
Proof.
  intros Hrun.
  pose proof (main_shows a _ (log_fires a) (body_shows_train_log a) d passes st
                eq_refl eq_refl eq_refl eq_refl eq_refl eq_refl Hrun) as Hsteps.
  split; [exact Hsteps|]. intros HL.
  unfold train_log_steps. rewrite Hsteps. by apply cadence_count.
Qed.

(** X8. The validation pass runs, and its header is logged, at exactly the
    global steps [g] of the run with [(g + 1) % eval_step == 0]; with a
    positive [eval_step] that is [(k + 1) // eval_step - 1 // eval_step]
    times in a run of [k] batches. *)
Theorem valid_log_cadence (a : args) (d : disk) (passes : list (list Batch))
    (st : state) :
  main a d passes = Interrupted st →
  valid_log_steps (trace st)
    = filter (eval_fires a) (seqZ 1 (Z.of_nat (length (concat passes))))
  ∧ (0 < eval_step a →
     Z.of_nat (length (valid_log_steps (trace st)))
     = (Z.of_nat (length (concat passes)) + 1) `div` eval_step a - 1 `div` eval_step a).
Proof.
  intros Hrun.
  pose proof (main_shows a _ (eval_fires a) (body_shows_valid_log a) d passes st
                eq_refl eq_refl eq_refl eq_refl eq_refl eq_refl Hrun) as Hsteps.
  split; [exact Hsteps|]. intros HL.
  unfold valid_log_steps. rewrite Hsteps. by apply cadence_count.
Qed.

(** X9. For every [save_step] and every length of run, the checkpoints are
    written at exactly the global steps [g] with
    [(g + 1) % save_step == 0]; with a positive [save_step] a run of [k]
    batches writes them [(k + 1) // save_step - 1 // save_step] times, so
    none before global step [save_step - 1]. *)
Theorem save_cadence_steps (a : args) (d : disk) (passes : list (list Batch))
    (st : state) :
  main a d passes = Interrupted st →
  saved_steps (trace st)
    = filter (fires a) (seqZ 1 (Z.of_nat (length (concat passes))))
  ∧ (0 < save_step a →
     Z.of_nat (length (saved_steps (trace st)))
     = (Z.of_nat (length (concat passes)) + 1) `div` save_step a - 1 `div` save_step a)
  ∧ (1 < save_step a → Z.of_nat (length (concat passes)) < save_step a - 1 →
     saved_steps (trace st) = []).
Proof.
  intros Hrun.
  pose proof (main_shows a _ (fires a) (body_shows_saved a) d passes st
                eq_refl eq_refl eq_refl eq_refl eq_refl eq_refl Hrun) as Hsteps.
  split; [exact Hsteps|].
  assert (Hcount : 0 < save_step a →
            Z.of_nat (length (saved_steps (trace st)))
            = (Z.of_nat (length (concat passes)) + 1) `div` save_step a
              - 1 `div` save_step a).
  { intros HS. unfold saved_steps. rewrite Hsteps. by apply cadence_count. }
  split; [exact Hcount|]. intros HS Hk.
  specialize (Hcount ltac:(lia)).
  rewrite !Z.div_small in Hcount by lia.
  destruct (saved_steps (trace st)); [done | simpl in Hcount; lia].
Qed.

Lemma guarded_steps_split (tr : list event) :
  optimizer_steps tr ++ nan_steps tr ≡ₚ guarded_steps tr.
Proof.
  induction tr as [|e tr IH]; [done|].
  destruct e as [[] []| |]; simpl; try exact IH.
  - change (optimizer_steps tr ++ global_step :: nan_steps tr
            ≡ₚ global_step :: guarded_steps tr).
    rewrite <- Permutation_middle. by constructor.
  - change (global_step :: optimizer_steps tr ++ nan_steps tr
            ≡ₚ global_step :: guarded_steps tr).
    by constructor.
Qed.

(** X10. Every global step of a run is decided by the guard exactly once:
    the steps with an optimizer update and the steps with a warning for a
    gradient norm that is not a number are disjoint and together are
    [1, ..., k]. *)
Theorem every_step_updates_or_warns (a : args) (d : disk)
    (passes : list (list Batch)) (st : state) :
  main a d passes = Interrupted st →
  guarded_steps (trace st) = seqZ 1 (Z.of_nat (length (concat passes)))
  ∧ optimizer_steps (trace st) ++ nan_steps (trace st)
      ≡ₚ seqZ 1 (Z.of_nat (length (concat passes)))
  ∧ ∀ g, g ∈ optimizer_steps (trace st) → g ∉ nan_steps (trace st).
Proof.
  intros Hrun.
  pose proof (main_shows a _ (λ _, True) (body_shows_guard a) d passes st
                eq_refl eq_refl eq_refl eq_refl eq_refl eq_refl Hrun) as Hsteps.
  rewrite filter_all in Hsteps. change (omap _ (trace st)) with (guarded_steps (trace st)) in Hsteps.
  split; [exact Hsteps|].
  assert (Hperm : optimizer_steps (trace st) ++ nan_steps (trace st)
                  ≡ₚ seqZ 1 (Z.of_nat (length (concat passes))))
    by (rewrite <- Hsteps; apply guarded_steps_split).
  split; [exact Hperm|]. intros g Hopt Hnan.
  assert (Hnd : NoDup (optimizer_steps (trace st) ++ nan_steps (trace st)))
    by (rewrite Hperm; apply NoDup_seqZ).
  apply NoDup_app in Hnd as (_ & Hdisj & _). by apply (Hdisj g).
Qed.

(** *** The buffer of cached results *)

Lemma train_body_buffer (a : args) (st st' : state) (batch : Batch) :
  0 < log_step a →
  Z.of_nat (length (batch_results st)) ≤ (pbar_n st + 1) mod log_step a →
  train_body a st batch = Ok st' →
  Z.of_nat (length (batch_results st')) ≤ (pbar_n st' + 1) mod log_step a.
Proof.
  intros HL Hinv Hrun.
  destruct (forward_backward (task st) batch) as [[t r] gn] eqn:Hfb.
  destruct (train_body_trace a st st' batch t r gn Hfb Hrun) as (Hn & Hb & _).
  rewrite Hb, Hn. unfold log_fires.
  destruct (decide _) as [Hz|Hnz].
  - rewrite Hz. simpl. lia.
  - rewrite (mod_succ (pbar_n st + 1)) by done.
    rewrite length_app. simpl. lia.
Qed.

Lemma train_for_buffer (a : args) (batches : list Batch) (st st' : state) :
  0 < log_step a →
  Z.of_nat (length (batch_results st)) ≤ (pbar_n st + 1) mod log_step a →
  train_for a batches st = Ok st' →
  Z.of_nat (length (batch_results st')) ≤ (pbar_n st' + 1) mod log_step a.
Proof.
  intros HL. revert st. induction batches as [|batch rest IH]; intros st Hinv; simpl.
  - by intros [= <-].
  - intros Hrun. apply SamplerSpec.bind_Ok in Hrun as (st1 & H1 & Hrest).
    eapply IH; [|done]. by eapply train_body_buffer.
Qed.

Lemma while_True_buffer (a : args) (passes : list (list Batch)) (st st' : state) :
  0 < log_step a →
  Z.of_nat (length (batch_results st)) ≤ (pbar_n st + 1) mod log_step a →
  while (λ _, true) (train_pass a) passes st = Running st' →
  Z.of_nat (length (batch_results st')) ≤ (pbar_n st' + 1) mod log_step a.
Proof.
  intros HL. revert st. induction passes as [|batches rest IH]; intros st Hinv; simpl.
  - by intros [= <-].
  - destruct (train_pass a batches st) as [st1|e] eqn:Hpass; [|done].
    apply IH. unfold train_pass in Hpass.
    eapply train_for_buffer; [done| |done]. simpl.
    apply Z.mod_pos_bound. lia.
Qed.

(** X11. With a positive [log_step] the buffer of cached results stays
    short: whenever a run is stopped between two batches it holds at most
    [(global_step + 1) % log_step] results, so fewer than [log_step]. *)
Theorem result_buffer_is_bounded (a : args) (d : disk)
    (passes : list (list Batch)) (st : state) :
  0 < log_step a →
  main a d passes = Interrupted st →
  Z.of_nat (length (batch_results st)) ≤ (pbar_n st + 1) mod log_step a
  ∧ Z.of_nat (length (batch_results st)) < log_step a.
Proof.
  intros HL. unfold main.
  destruct (startup d) as [st0|e] eqn:Hstart; [|done].
  destruct (while _ _ passes st0) as [|st'|] eqn:Hrun; try done.
  intros [= <-]. apply startup_inv in Hstart as (Hn0 & Hb0 & _).
  assert (Hinv : Z.of_nat (length (batch_results st'))
                 ≤ (pbar_n st' + 1) mod log_step a).
  { eapply while_True_buffer; [done| |done]. rewrite Hb0. simpl.
    apply Z.mod_pos_bound. lia. }
  split; [done|]. pose proof (Z.mod_pos_bound (pbar_n st' + 1) (log_step a) HL). lia.
Qed.

(** *** A zero step *)

Lemma log_cadence_total (a : args) (st : state) :
  log_step a ≠ 0 → is_Ok (log_cadence a st).
Proof.
  intros Hl. unfold log_cadence, py_mod. rewrite decide_False by done. simpl.
  destruct (decide _); by eexists.
Qed.

Lemma eval_cadence_total (a : args) (st : state) :
  eval_step a ≠ 0 → is_Ok (eval_cadence a st).
Proof.
  intros He. unfold eval_cadence, py_mod. rewrite decide_False by done. simpl.
  destruct (decide _); [destruct (valid_loop _ _ _)|]; by eexists.
Qed.

Lemma train_body_zero_step (a : args) (st : state) (batch : Batch) :
  log_step a = 0 ∨ eval_step a = 0 ∨ save_step a = 0 →
  train_body a st batch = Raise ZeroDivisionError.
Proof.
  intros Hzero. unfold train_body.
  destruct (decide (log_step a = 0)) as [Hl|Hl].
  { unfold log_cadence, py_mod. by rewrite decide_True. }
  destruct (log_cadence_total a (update_phase st batch) Hl) as [st1 ->]. simpl.
  destruct (decide (eval_step a = 0)) as [He|He].
  { unfold eval_cadence, py_mod. by rewrite decide_True. }
  destruct (eval_cadence_total a st1 He) as [st2 ->]. simpl.
  assert (Hs : save_step a = 0) by tauto.
  unfold save_cadence, py_mod. by rewrite decide_True.
Qed.

Lemma while_True_zero_step (a : args) (passes : list (list Batch)) (st : state) :
  log_step a = 0 ∨ eval_step a = 0 ∨ save_step a = 0 →
  concat passes ≠ [] →
  while (λ _, true) (train_pass a) passes st = Raised ZeroDivisionError.
Proof.
  intros Hzero. revert st. induction passes as [|batches rest IH]; intros st Hne.
  - done.
  - simpl. destruct batches as [|batch more].
    + simpl. apply IH. by simpl in Hne.
    + unfold train_pass. simpl. by rewrite train_body_zero_step.
Qed.

(** X12. With [log_step], [eval_step] or [save_step] equal to 0 no batch
    gets through the loop body, whatever the task does: the cadence test
    divides by zero; so a run that is given a batch is never one that is
    still training after it. *)
Theorem a_zero_step_stops_the_run (a : args) (d : disk)
    (passes : list (list Batch)) :
  log_step a = 0 ∨ eval_step a = 0 ∨ save_step a = 0 →
  (∀ st batch, ¬ is_Ok (train_body a st batch))
  ∧ (concat passes ≠ [] → ∀ st, main a d passes ≠ Interrupted st).
Proof.
  intros Hzero. split.
  - intros st batch [st' Hst']. by rewrite train_body_zero_step in Hst'.
  - intros Hne st. unfold main.
    destruct (startup d) as [st0|e]; [|done].
    by rewrite while_True_zero_step.
Qed.

(** *** Checkpoints *)

Lemma startup_keeps_other_files (d : disk) (st : state) (name : string) :
  startup d = Ok st →
  name ≠ "valid_dataset.ckpt" → name ≠ "test_dataset.ckpt" →
  files st !! name = d !! name.
Proof.
  intros Hstart H1 H2. apply startup_inv in Hstart as (_ & _ & -> & _).
  unfold disk in *. by rewrite !lookup_insert_ne.
Qed.

(** X13. What a start reads from the directory it reads file by file: the
    task comes from [task.ckpt] alone and the optimizer from
    [optimizer.ckpt] alone, so an optimizer checkpoint without a task
    checkpoint is loaded into the optimizer of a new task; every start
    rewrites the two dataset checkpoints and leaves all other files as
    they are. *)
Theorem startup_reads_each_file_alone (d : disk) (st : state) :
  startup d = Ok st →
  task st = match d !! "task.ckpt" with
            | Some (TaskFile c) => load_checkpoint c
            | _ => create_task
            end
  ∧ optimizer st = match d !! "optimizer.ckpt" with
                   | Some (OptimizerFile o) => o
                   | _ => Adam
                   end
  ∧ files st !! "valid_dataset.ckpt" = Some (DatasetFile valid_dataset_ckpt)
  ∧ files st !! "test_dataset.ckpt" = Some (DatasetFile test_dataset_ckpt)
  ∧ ∀ name, name ≠ "valid_dataset.ckpt" → name ≠ "test_dataset.ckpt" →
      files st !! name = d !! name.
Proof.
  unfold startup, read_task, read_optimizer, disk in *.
  rewrite !lookup_insert_ne by done.
  destruct (d !! "task.ckpt") as [[| |]|]; simpl; try done;
    destruct (d !! "optimizer.ckpt") as [[| |]|]; simpl; try done;
    intros [= <-]; simpl;
    (repeat split; try done;
     [ by rewrite lookup_insert_ne, lookup_insert_eq
     | by rewrite lookup_insert_eq
     | by intros name H1 H2; rewrite !lookup_insert_ne ]).
Qed.

(** X14. A start on the directory left by a batch at which the save cadence
    fired gets back what that batch saved: the task is the saved task
    loaded again and the optimizer is the one at the end of that batch;
    the step counter is 0. *)
Theorem checkpoint_round_trip (a : args) (st st' : state) (batch : Batch) :
  train_body a st batch = Ok st' → fires a (pbar_n st + 1) →
  ∃ st2, startup (files st') = Ok st2
       ∧ task st2 = load_checkpoint (save_checkpoint (task st'))
       ∧ optimizer st2 = optimizer st'
       ∧ pbar_n st2 = 0.
Proof.
  intros Hrun Hfires. unfold train_body in Hrun.
  destruct (forward_backward (task st) batch) as [[t r] gn] eqn:Hfb.
  destruct (update_phase_inv st batch t r gn Hfb) as (Hn & _).
  apply cadences_inv in Hrun as (_ & _ & _ & _ & _ & _ & _ & Hfiles).
  rewrite Hn in Hfiles. rewrite decide_True in Hfiles by done.
  unfold startup, read_task, read_optimizer, disk in *. rewrite Hfiles.
  rewrite !(lookup_insert_ne _ "test_dataset.ckpt") by done.
  rewrite !(lookup_insert_ne _ "valid_dataset.ckpt") by done.
  rewrite (lookup_insert_ne _ "optimizer.ckpt" "task.ckpt") by done.
  rewrite !lookup_insert_eq. simpl. by eexists.
Qed.

(** X15. The two checkpoint files are written together: a run on a
    directory that has neither leaves neither when the save cadence never
    fired, and both, each of its own kind, as soon as it fired once. *)
Theorem checkpoints_are_written_together (a : args) (d : disk)
    (passes : list (list Batch)) (st : state) :
  d !! "task.ckpt" = None → d !! "optimizer.ckpt" = None →
  main a d passes = Interrupted st →
  (saved_steps (trace st) = []
   ∧ files st !! "task.ckpt" = None ∧ files st !! "optimizer.ckpt" = None)
  ∨ (saved_steps (trace st) ≠ []
     ∧ ∃ c o, files st !! "task.ckpt" = Some (TaskFile c)
            ∧ files st !! "optimizer.ckpt" = Some (OptimizerFile o)).
Proof.
  intros Ht Ho. unfold main.
  destruct (startup d) as [st0|e] eqn:Hstart; [|done].
  pose proof (while_True_outcome a passes st0) as Hout.
  destruct (while _ _ passes st0) as [|st'|]; try done.
  intros [= <-]. destruct Hout as [_ (new & Htr & Hsaved & _) Hq Hsv _].
  pose proof (startup_keeps_other_files d st0 "task.ckpt" Hstart) as Hft.
  pose proof (startup_keeps_other_files d st0 "optimizer.ckpt" Hstart) as Hfo.
  apply startup_inv in Hstart as (_ & _ & _ & Htr0).
  assert (Hs0 : saved_steps (trace st0) = []) by (by destruct Htr0 as [-> | ->]).
  rewrite Htr, saved_steps_app, Hs0, Hsaved. simpl.
  destruct (cadence_steps a (pbar_n st0) _) as [|g gs] eqn:Hsteps.
  - left. rewrite Hq by done. rewrite Hft, Hfo by done. done.
  - right. split; [done|]. by apply Hsv.
Qed.

End Controller.

End TrainMore.

(** ** The further properties on concrete inputs *)

Module MoreExamples.
Import Sampler Train Instances SamplerSpec TrainSpec InstancesSpec Examples.
Import SamplerMore TrainMore.

(** X1 on the skewed dataset: three items carry label [A]. *)
Lemma count_labels_entries_witness :
  count_labels label skewed_dataset !! A = Some 3%nat.
Proof.
  apply (count_labels_entries label skewed_dataset A 3%nat).
  split; [vm_compute; reflexivity|].
  exists (mk_utterance 0 A). split; [left | reflexivity].
Defined.

Lemma skewed_weights :
  get_weights label skewed_dataset = Ok [4 # 3; 4 # 3; 4 # 1; 4 # 3]%Q.
Proof. vm_compute. reflexivity. Qed.

(** X2 on the skewed dataset: the weight of the one item of class [B]. *)
Lemma default_weights_bounds_witness :
  ∃ x, [4 # 3; 4 # 3; 4 # 1; 4 # 3]%Q !! 2%nat = Some x
     ∧ (1 <= x)%Q ∧ (x <= inject_Z 4)%Q.
Proof.
  destruct (default_weights_bounds label skewed_dataset _ 2%nat (mk_utterance 2 B)
              skewed_weights eq_refl) as (x & Hx & Hlo & Hhi & _).
  exists x. split; [exact Hx|]. split; [exact Hlo | exact Hhi].
Defined.

(** X4 on the skewed dataset: epoch 3 of seed [seed0] is epoch 0 of seed
    [seed0 + 3]. *)
Lemma epoch_shifts_seed_witness :
  ∃ s s', __init__ label skewed_dataset 2 None 1 seed0 = Ok s
        ∧ __init__ label skewed_dataset 2 None 1 (seed0 + 3) = Ok s'
        ∧ __iter__ weighted_sampler (set_epoch s 3) = __iter__ weighted_sampler s'.
Proof.
  destruct (__init__ label skewed_dataset 2 None 1 seed0) as [s|] eqn:Hs;
    [|vm_compute in Hs; discriminate].
  destruct (__init__ label skewed_dataset 2 None 1 (seed0 + 3)) as [s'|] eqn:Hs';
    [|vm_compute in Hs'; discriminate].
  exists s, s'. split; [reflexivity|]. split; [reflexivity|].
  exact (proj1 (epoch_shifts_seed label weighted_sampler skewed_dataset 2 1 seed0 3
                  s s' Hs Hs')).
Defined.

(** X5 on the skewed dataset with batch size 0. *)
Lemma nonpositive_batch_size_emits_nothing_witness :
  ∃ s, __init__ label skewed_dataset 0 None 1 seed0 = Ok s
     ∧ __iter__ weighted_sampler (set_epoch s 0) = Ok []
     ∧ __len__ weighted_sampler (set_epoch s 0) = Ok 0%nat.
Proof.
  destruct (__init__ label skewed_dataset 0 None 1 seed0) as [s|] eqn:Hs;
    [|vm_compute in Hs; discriminate].
  exists s. split; [reflexivity|].
  destruct (nonpositive_batch_size_emits_nothing label weighted_sampler
              weighted_sampler_contract skewed_dataset 0 1 seed0 0 s Hs)
    as (_ & Hiter & Hlen).
  - discriminate.
  - lia.
  - apply valid_seed0. lia.
  - lia.
  - split; [exact Hiter | exact Hlen].
Defined.

(** X6 on a dataset of one item with six weights: six positions are drawn. *)
Lemma custom_weights_govern_draws_witness :
  ∃ s indices,
    __init__ label single_dataset 4 (Some six_weights) 1 seed0 = Ok s
    ∧ draw_indices weighted_sampler (set_epoch s 0) = Ok indices
    ∧ Z.of_nat (length indices) = 6 * 1.
Proof.
  destruct (__init__ label single_dataset 4 (Some six_weights) 1 seed0) as [s|] eqn:Hs;
    [|vm_compute in Hs; discriminate].
  destruct (custom_weights_govern_draws label weighted_sampler weighted_sampler_contract
              six_weights single_dataset [1; 1; 1; 1; 1; 1]%Q 4 1 seed0 0 s eq_refl Hs)
    as (_ & indices & Hdraw & Hcount & _).
  - split; [discriminate|]. repeat constructor.
  - lia.
  - apply valid_seed0. lia.
  - exists s, indices. split; [reflexivity|]. split; [exact Hdraw | exact Hcount].
Defined.

(** The run of twelve batches. *)
Lemma run_12 :
  main small_args empty_disk passes_12
  = Interrupted (stopped_in (main small_args empty_disk passes_12)).
Proof. apply stopped_in_Interrupted. vm_compute. reflexivity. Qed.

(** X7 on the run of twelve batches with [log_step = 3]. *)
Lemma train_log_cadence_witness :
  train_log_steps (trace (stopped_in (main small_args empty_disk passes_12)))
    = filter (log_fires small_args) (seqZ 1 (Z.of_nat (length (concat passes_12))))
  ∧ train_log_steps (trace (stopped_in (main small_args empty_disk passes_12)))
    = [2; 5; 8; 11].
Proof.
  split; [|vm_compute; reflexivity].
  exact (proj1 (train_log_cadence small_args empty_disk passes_12 _ run_12)).
Defined.

(** X8 on the run of twelve batches with [eval_step = 4]. *)
Lemma valid_log_cadence_witness :
  valid_log_steps (trace (stopped_in (main small_args empty_disk passes_12)))
    = filter (eval_fires small_args) (seqZ 1 (Z.of_nat (length (concat passes_12))))
  ∧ valid_log_steps (trace (stopped_in (main small_args empty_disk passes_12)))
    = [3; 7; 11].
Proof.
  split; [|vm_compute; reflexivity].
  exact (proj1 (valid_log_cadence small_args empty_disk passes_12 _ run_12)).
Defined.

(** X9 on the run of twelve batches with [save_step = 5]. *)
Lemma save_cadence_steps_witness :
  saved_steps (trace (stopped_in (main small_args empty_disk passes_12)))
    = filter (fires small_args) (seqZ 1 (Z.of_nat (length (concat passes_12))))
  ∧ saved_steps (trace (stopped_in (main small_args empty_disk passes_12))) = [4; 9].
Proof.
  split; [|vm_compute; reflexivity].
  exact (proj1 (save_cadence_steps small_args empty_disk passes_12 _ run_12)).
Defined.

(** X10 on the run of twelve batches, three of them without value. *)
Lemma every_step_updates_or_warns_witness :
  guarded_steps (trace (stopped_in (main small_args empty_disk passes_12)))
    = seqZ 1 (Z.of_nat (length (concat passes_12)))
  ∧ nan_steps (trace (stopped_in (main small_args empty_disk passes_12))) = [2; 6; 10].
Proof.
  split; [|vm_compute; reflexivity].
  exact (proj1 (every_step_updates_or_warns small_args empty_disk passes_12 _ run_12)).
Defined.

(** X11 on the run of twelve batches: one result is buffered. *)
Lemma result_buffer_is_bounded_witness :
  0 < log_step small_args
  ∧ Z.of_nat (length (batch_results (stopped_in (main small_args empty_disk passes_12))))
    < log_step small_args.
Proof.
  split; [reflexivity|].
  exact (proj2 (result_buffer_is_bounded small_args empty_disk passes_12 _
                  eq_refl run_12)).
Defined.

(** X12 on a run with [--log_step 0]. *)
Lemma a_zero_step_stops_the_run_witness :
  log_step zero_log_args = 0
  ∧ ¬ is_Ok (train_body zero_log_args fresh_state (Some 1))
  ∧ is_interrupted (main zero_log_args empty_disk passes_3) = false.
Proof.
  split; [reflexivity|].
  destruct (a_zero_step_stops_the_run (C := toy) zero_log_args empty_disk passes_3)
    as [Hbody Hrun].
  - left. reflexivity.
  - split; [apply Hbody|].
    destruct (main zero_log_args empty_disk passes_3) as [|st|] eqn:Hmain;
      [reflexivity | | reflexivity].
    exfalso. apply (Hrun ltac:(discriminate) st). reflexivity.
Defined.

(** X13 on a directory with an optimizer checkpoint only. *)
Lemma startup_reads_each_file_alone_witness :
  task (started (startup optimizer_only_disk)) = create_task
  ∧ optimizer (started (startup optimizer_only_disk)) = 41.
Proof.
  destruct (startup_reads_each_file_alone (C := toy) optimizer_only_disk
              (started (startup optimizer_only_disk)))
    as (Ht & Ho & _).
  - apply started_Ok. vm_compute. reflexivity.
  - split; [exact Ht | exact Ho].
Defined.

(** X14 on one batch under arguments that save at every step. *)
Lemma checkpoint_round_trip_witness :
  ∃ st2, startup (files (started (train_body every_step_args fresh_state (Some 1))))
         = Ok st2
       ∧ optimizer st2 = 1
       ∧ pbar_n st2 = 0.
Proof.
  destruct (checkpoint_round_trip (C := toy) every_step_args fresh_state
              (started (train_body every_step_args fresh_state (Some 1))) (Some 1))
    as (st2 & Hstart & _ & Ho & Hn).
  - apply started_Ok. vm_compute. reflexivity.
  - vm_compute. reflexivity.
  - exists st2. split; [exact Hstart|]. split; [|exact Hn].
    rewrite Ho. vm_compute. reflexivity.
Defined.

(** X15 on the run of twelve batches: both files are there. *)
Lemma checkpoints_are_written_together_witness :
  ∃ c o,
    files (stopped_in (main small_args empty_disk passes_12)) !! "task.ckpt"
      = Some (TaskFile c)
    ∧ files (stopped_in (main small_args empty_disk passes_12)) !! "optimizer.ckpt"
      = Some (OptimizerFile o).
Proof.
  destruct (checkpoints_are_written_together (C := toy) small_args empty_disk passes_12
              _ eq_refl eq_refl run_12) as [(Hnone & _) | (_ & Hboth)].
  - vm_compute in Hnone. discriminate.
  - exact Hboth.
Defined.

End MoreExamples.
